(** * nslogger: the NSLogger binary log decoder (nsloggerDecode.go)

    A shallow embedding of the Go package [nslogger]: the frame walker
    [NsLoggerParse], the part decoders [appendValue], [skipPart] and
    [readDate], and the record accumulator [logMessageString].

    Conventions of the embedding.
    - A [uint32] is a [Z] in [0, 2^32); every addition of the source is
      followed by its wrap-around ([u32]).
    - A Go byte slice is a [slice]: its [len] elements and the elements of
      the backing array between [len] and [cap].  An index expression is
      checked against [len], a slice expression against [cap], as the Go
      language defines them.
    - A Go [string] is a sequence of bytes, here a [String.string].
    - A call either returns, or panics (runtime error), or ends the process
      through [log.Fatal] (the helper [check]): type [outcome].
    - The outer loop of [NsLoggerParse] need not terminate; it is modelled
      with fuel, and [None] means that the fuel ran out.
    - Lines written to standard output by [fmt.Println] are not part of the
      model. *)

From Stdlib Require Import ZArith List Bool Lia String Ascii.
From Stdlib Require Import Strings.Byte DecimalString.
Import ListNotations.

Local Open Scope string_scope.
Local Open Scope Z_scope.

(** ** Outcomes of a call *)

Inductive panic : Set :=
| IndexOutOfRange
| SliceBoundsOutOfRange.

(** Go's [error] values built by [errors.New] carry their text. *)
Definition error : Set := string.

Inductive outcome (A : Type) : Type :=
| Ret (a : A)           (* the call returns [a] *)
| Panic (p : panic)     (* runtime panic *)
| Fatal (e : error).    (* [log.Fatal]: the process exits *)

Arguments Ret {A} a.
Arguments Panic {A} p.
Arguments Fatal {A} e.

Definition bind {A B} (o : outcome A) (k : A -> outcome B) : outcome B :=
  match o with
  | Ret a => k a
  | Panic p => Panic p
  | Fatal e => Fatal e
  end.

Notation "x <- c1 ;; c2" := (bind c1 (fun x => c2))
  (at level 61, c1 at next level, right associativity).
Notation "' pat <- c1 ;; c2" :=
  (bind c1 (fun x => match x with pat => c2 end))
  (at level 61, pat pattern, c1 at next level, right associativity).

(** [check]: [log.Fatal] unless the error is nil. *)
Definition check (err : option error) : outcome unit :=
  match err with
  | Some e => Fatal e
  | None => Ret tt
  end.

(** ** Machine integers *)

Definition u32 (z : Z) : Z := z mod 2 ^ 32.

Definition byteZ (x : byte) : Z := Z.of_N (Byte.to_N x).

(** Two's complement reading of a [w]-bit pattern. *)
Definition signed (w : Z) (u : Z) : Z :=
  if u <? 2 ^ (w - 1) then u else u - 2 ^ w.

(** ** Byte slices *)

Record slice : Type := mkSlice {
  elems : list byte;   (* b[0], ..., b[len(b)-1] *)
  spare : list byte    (* the backing array from len(b) up to cap(b) *)
}.

Definition len (b : slice) : Z := Z.of_nat (List.length (elems b)).
Definition cap (b : slice) : Z :=
  Z.of_nat (List.length (elems b) + List.length (spare b)).

(** A slice whose capacity equals its length. *)
Definition bytes (l : list byte) : slice := mkSlice l [].

(** [b[i]] *)
Definition index (b : slice) (i : Z) : outcome byte :=
  if (0 <=? i) && (i <? len b) then
    match nth_error (elems b) (Z.to_nat i) with
    | Some x => Ret x
    | None => Panic IndexOutOfRange
    end
  else Panic IndexOutOfRange.

(** [b[lo:hi]]: the bounds are checked against the capacity. *)
Definition subslice (b : slice) (lo hi : Z) : outcome (list byte) :=
  if (0 <=? lo) && (lo <=? hi) && (hi <=? cap b) then
    Ret (firstn (Z.to_nat (hi - lo)) (skipn (Z.to_nat lo) (elems b ++ spare b)))
  else Panic SliceBoundsOutOfRange.

(** ** encoding/binary *)

(** [byte(v)]: the low eight bits. *)
Definition byteOfZ (v : Z) : byte :=
  match Byte.of_N (Z.to_N (Z.land v 255)) with
  | Some x => x
  | None => x00
  end.

Module BigEndian.

(** [BigEndian.Uint16(b)], [BigEndian.Uint32(b)] and [BigEndian.Uint64(b)]
    index the last byte they need first ([_ = b[1]], [_ = b[3]],
    [_ = b[7]]) and so panic on a shorter slice. *)
Definition Uint16 (l : list byte) : outcome Z :=
  match l with
  | b0 :: b1 :: _ => Ret (Z.lor (byteZ b1) (Z.shiftl (byteZ b0) 8))
  | _ => Panic IndexOutOfRange
  end.

Definition Uint32 (l : list byte) : outcome Z :=
  match l with
  | b0 :: b1 :: b2 :: b3 :: _ =>
      Ret (Z.lor (Z.lor (Z.lor (byteZ b3) (Z.shiftl (byteZ b2) 8))
                        (Z.shiftl (byteZ b1) 16))
                 (Z.shiftl (byteZ b0) 24))
  | _ => Panic IndexOutOfRange
  end.

Definition Uint64 (l : list byte) : outcome Z :=
  match l with
  | b0 :: b1 :: b2 :: b3 :: b4 :: b5 :: b6 :: b7 :: _ =>
      Ret (Z.lor (Z.lor (Z.lor (Z.lor (Z.lor (Z.lor (Z.lor
            (byteZ b7) (Z.shiftl (byteZ b6) 8)) (Z.shiftl (byteZ b5) 16))
            (Z.shiftl (byteZ b4) 24)) (Z.shiftl (byteZ b3) 32))
            (Z.shiftl (byteZ b2) 40)) (Z.shiftl (byteZ b1) 48))
            (Z.shiftl (byteZ b0) 56))
  | _ => Panic IndexOutOfRange
  end.

(** [BigEndian.PutUint32(b, v)], as the four bytes it stores. *)
Definition PutUint32 (v : Z) : list byte :=
  [byteOfZ (Z.shiftr v 24); byteOfZ (Z.shiftr v 16);
   byteOfZ (Z.shiftr v 8); byteOfZ v].

(** [BigEndian.PutUint16(b, v)] and [BigEndian.PutUint64(b, v)], likewise. *)
Definition PutUint16 (v : Z) : list byte :=
  [byteOfZ (Z.shiftr v 8); byteOfZ v].

Definition PutUint64 (v : Z) : list byte :=
  [byteOfZ (Z.shiftr v 56); byteOfZ (Z.shiftr v 48);
   byteOfZ (Z.shiftr v 40); byteOfZ (Z.shiftr v 32);
   byteOfZ (Z.shiftr v 24); byteOfZ (Z.shiftr v 16);
   byteOfZ (Z.shiftr v 8); byteOfZ v].

End BigEndian.

(** [io.ReadFull] from a [bytes.Reader] over [l] into a buffer of [n]
    bytes. *)
Definition ReadFull (n : nat) (l : list byte) : error + list byte :=
  if (n <=? List.length l)%nat then inr (firstn n l)
  else if (List.length l =? 0)%nat then inl "EOF"
  else inl "unexpected EOF".

(** [binary.Read(bytes.NewReader(l), BigEndian, &val)] for [val] of type
    [int16], [int32] and [int64]: the error, or the value stored in [val]. *)
Definition Read (n : nat) (decode : list byte -> outcome Z) (l : list byte)
  : outcome (option error * Z) :=
  match ReadFull n l with
  | inl e => Ret (Some e, 0)
  | inr bs => u <- decode bs ;; Ret (None, signed (8 * Z.of_nat n) u)
  end.

Definition ReadInt16 := Read 2 BigEndian.Uint16.
Definition ReadInt32 := Read 4 BigEndian.Uint32.
Definition ReadInt64 := Read 8 BigEndian.Uint64.

(** ** fmt *)

Module fmt.

(** [%v] of an integer: its decimal text. *)
Definition decimal (z : Z) : string := NilZero.string_of_int (Z.to_int z).

End fmt.

(** ** fmt.Sprintf with the separator inside the format *)

Module Sprintf.

(** What [fmt.Sprintf] writes for the text [s] of a format once every
    operand has been used: plain bytes are copied, [%%] writes one [%],
    a [%] that ends the format writes [%!(NOVERB)] and ends it, and a
    [%] followed by a verb [c] writes [%!c(MISSING)].  Flags, widths,
    precisions and argument indexes between [%] and the verb are not
    modelled: the byte after [%] is taken as the verb. *)
Fixpoint rest (s : string) : string :=
  match s with
  | EmptyString => EmptyString
  | String c s' =>
      if Ascii.eqb c "%" then
        match s' with
        | EmptyString => "%!(NOVERB)"
        | String v s'' =>
            if Ascii.eqb v "%" then String "%" (rest s'')
            else ("%!" ++ String v "(MISSING)" ++ rest s'')%string
        end
      else String c (rest s')
  end.

(** [fmt.Sprintf("%v"+separator, value)] for an integer [value]. *)
Definition v_then (separator : string) (value : Z) : string :=
  (fmt.decimal value ++ rest separator)%string.

End Sprintf.

(** ** The record accumulator (logMessage, logMessageString) *)

Class logMessage (M : Type) : Type := {
  addString : M -> string -> M;
  addInt16 : M -> Z -> M;
  addInt32 : M -> Z -> M;
  addInt64 : M -> Z -> M
}.

Record logMessageString : Type := mkLogMessageString {
  value : string;
  separator : string
}.

(** The method [String()]. *)
Definition String' (t : logMessageString) : string := value t.

Definition logMessageString_addString (t : logMessageString) (v : string)
  : logMessageString :=
  if String.eqb v "" then t
  else mkLogMessageString (value t ++ (v ++ separator t))%string (separator t).

Definition logMessageString_addInt (t : logMessageString) (v : Z)
  : logMessageString :=
  mkLogMessageString (value t ++ Sprintf.v_then (separator t) v)%string
                     (separator t).

#[export] Instance logMessageString_logMessage : logMessage logMessageString := {
  addString := logMessageString_addString;
  addInt16 := logMessageString_addInt;
  addInt32 := logMessageString_addInt;
  addInt64 := logMessageString_addInt
}.

(** ** Constants of the wire format *)

Definition PartKeyMessageType := 0.
Definition PartKeyTimestampS := 1.
Definition PartKeyTimestampMs := 2.
Definition PartKeyTimestampUs := 3.
Definition PartKeyThreadId := 4.
Definition PartKeyTag := 5.
Definition PartKeyLevel := 6.
Definition PartKeyMessage := 7.
Definition PartKeyImageWidth := 8.
Definition PartKeyImageHeight := 9.
Definition PartKeyMessageSeq := 10.
Definition PartKeyFilename := 11.
Definition PartKeyLinenumber := 12.
Definition PartKeyFunctionname := 13.
Definition PartKeyClientName := 20.
Definition PartKeyClientVersion := 21.
Definition PartKeyOsName := 22.
Definition PartKeyOsVersion := 23.
Definition PartKeyClientModel := 24.
Definition PartKeyUniqueid := 25.
Definition PartKeyUserDefined := 100.

Definition PartTypeString := 0.
Definition PartTypeBinary := 1.
Definition PartTypeInt16 := 2.
Definition PartTypeInt32 := 3.
Definition PartTypeInt64 := 4.
Definition PartTypeImage := 5.

Definition errUnknownPartType : error := "Unkown part type".
Definition errSkipNotHandled : error := "Skipping not handled for that part type".
Definition errDateNotParsed : error := "Date can't be parsed using that part type".
Definition errUnknownPartKey : error := "Unkown part key".

(** ** The part decoders *)

(** [BigEndian.Uint32(b[nBytes+2 : nBytes+6])]: the length field of a part
    of type string, binary or image. *)
Definition lengthField (b : slice) (nBytes : Z) : outcome Z :=
  bs <- subslice b (u32 (nBytes + 2)) (u32 (nBytes + 6)) ;;
  BigEndian.Uint32 bs.

(** [appendValue(b, nBytes, m)]: the returned [partSize] and the record
    after the [add...] call. *)
Definition appendValue {M : Type} `{logMessage M}
    (b : slice) (nBytes : Z) (m : M) : outcome (Z * M) :=
  partType <- index b (u32 (nBytes + 1)) ;;
  let partType := byteZ partType in
  if partType =? PartTypeInt16 then
    let partSize := 2 in
    bs <- subslice b (u32 (2 + nBytes)) (u32 (2 + nBytes + partSize)) ;;
    '(err, val) <- ReadInt16 bs ;;
    _ <- check err ;;
    Ret (partSize, addInt16 m val)
  else if partType =? PartTypeInt32 then
    let partSize := 4 in
    bs <- subslice b (u32 (nBytes + 2)) (u32 (nBytes + 2 + partSize)) ;;
    '(err, val) <- ReadInt32 bs ;;
    _ <- check err ;;
    Ret (partSize, addInt32 m val)
  else if partType =? PartTypeInt64 then
    let partSize := 8 in
    bs <- subslice b (u32 (nBytes + 2)) (u32 (nBytes + 2 + partSize)) ;;
    '(err, val) <- ReadInt64 bs ;;
    _ <- check err ;;
    Ret (partSize, addInt64 m val)
  else if partType =? PartTypeString then
    partSize <- lengthField b nBytes ;;
    data <- subslice b (u32 (nBytes + 6)) (u32 (nBytes + 6 + partSize)) ;;
    Ret (u32 (partSize + 4), addString m (string_of_list_byte data))
  else if partType =? PartTypeBinary then
    partSize <- lengthField b nBytes ;;
    Ret (u32 (partSize + 4), m)
  else if partType =? PartTypeImage then
    partSize <- lengthField b nBytes ;;
    Ret (u32 (partSize + 4), m)
  else
    _ <- check (Some errUnknownPartType) ;;
    Ret (0, m).

(** [skipPart(b, nBytes)] *)
Definition skipPart (b : slice) (nBytes : Z) : outcome Z :=
  partType <- index b (u32 (nBytes + 1)) ;;
  let partType := byteZ partType in
  if partType =? PartTypeInt32 then Ret 4
  else if partType =? PartTypeInt64 then Ret 8
  else if partType =? PartTypeString then
    partSize <- lengthField b nBytes ;;
    Ret (u32 (partSize + 4))
  else
    _ <- check (Some errSkipNotHandled) ;;
    Ret 0.

(** ** time *)

(** The decimal text of [z], with zeros in front up to [width] digits. *)
Definition pad (width : nat) (z : Z) : string :=
  let s := fmt.decimal z in
  (string_of_list_ascii (repeat "0"%char (width - String.length s)) ++ s)%string.

(** [time.Unix(sec, 0).String()] when the host's local zone is UTC, for the
    years 0000 to 9999 (days are turned into a civil date in the proleptic
    Gregorian calendar). *)
Definition utcString (sec : Z) : string :=
  let days := sec / 86400 in
  let rem := sec mod 86400 in
  let z := days + 719468 in
  let era := z / 146097 in
  let doe := z - era * 146097 in
  let yoe := (doe - doe / 1460 + doe / 36524 - doe / 146096) / 365 in
  let doy := doe - (365 * yoe + yoe / 4 - yoe / 100) in
  let mp := (5 * doy + 2) / 153 in
  let d := doy - (153 * mp + 2) / 5 + 1 in
  let m := if mp <? 10 then mp + 3 else mp - 9 in
  let y := yoe + era * 400 + (if m <=? 2 then 1 else 0) in
  (pad 4 y ++ "-" ++ pad 2 m ++ "-" ++ pad 2 d ++ " " ++
   pad 2 (rem / 3600) ++ ":" ++ pad 2 (rem mod 3600 / 60) ++ ":" ++
   pad 2 (rem mod 60) ++ " +0000 UTC")%string.

Section Decoder.

(** [timeString sec] is [time.Unix(sec, 0).String()]: the date and time in
    the local zone of the host, which the program does not control. *)
Variable timeString : Z -> string.

(** [readDate(b, nBytes)] *)
Definition readDate (b : slice) (nBytes : Z) : outcome (Z * string) :=
  partType <- index b (u32 (nBytes + 1)) ;;
  let partType := byteZ partType in
  if partType =? PartTypeInt32 then
    let partSize := 4 in
    bs <- subslice b (u32 (nBytes + 2)) (u32 (nBytes + 2 + partSize)) ;;
    '(err, val) <- ReadInt32 bs ;;
    _ <- check err ;;
    Ret (partSize, fmt.decimal val)
  else if partType =? PartTypeInt64 then
    let partSize := 8 in
    bs <- subslice b (u32 (nBytes + 2)) (u32 (nBytes + 2 + partSize)) ;;
    '(err, val) <- ReadInt64 bs ;;
    _ <- check err ;;
    Ret (partSize, timeString val)
  else if partType =? PartTypeString then
    partSize <- lengthField b nBytes ;;
    data <- subslice b (u32 (nBytes + 6)) (u32 (nBytes + 6 + partSize)) ;;
    Ret (u32 (partSize + 4), string_of_list_byte data)
  else
    _ <- check (Some errDateNotParsed) ;;
    Ret (0, "").

(** The keys whose [case] of the switch in [NsLoggerParse] is empty. *)
Definition plainKeys : list Z :=
  [PartKeyMessageType; PartKeyTimestampMs; PartKeyTimestampUs;
   PartKeyThreadId; PartKeyTag; PartKeyLevel; PartKeyMessage;
   PartKeyImageWidth; PartKeyImageHeight; PartKeyFilename;
   PartKeyLinenumber; PartKeyFunctionname; PartKeyClientName;
   PartKeyClientVersion; PartKeyOsName; PartKeyOsVersion;
   PartKeyClientModel; PartKeyUniqueid].

(** The switch on the key: [usedData] and [formatedValue] after it, or
    [None] in the default case.  The source lists its cases in the order
    of the key values; no two of them have the same key. *)
Definition keySwitch (b : slice) (nBytes : Z) (key : Z)
  : outcome (option (Z * string)) :=
  if key =? PartKeyTimestampS then
    r <- readDate b nBytes ;; Ret (Some r)
  else if key =? PartKeyMessageSeq then
    usedData <- skipPart b nBytes ;; Ret (Some (usedData, ""))
  else if existsb (Z.eqb key) plainKeys then Ret (Some (0, ""))
  else Ret None.

(** One turn of the inner loop of [NsLoggerParse]: the cursor and the
    record after the part at [nBytes], or [None] when the function
    returns the error of the default case. *)
Definition decodePart (b : slice) (nBytes : Z) (m : logMessageString)
  : outcome (option (Z * logMessageString)) :=
  key <- index b nBytes ;;
  r <- keySwitch b nBytes (byteZ key) ;;
  match r with
  | None => Ret None
  | Some (usedData, formatedValue) =>
      '(usedData, m) <-
        (if negb (usedData =? 0) then Ret (usedData, addString m formatedValue)
         else appendValue b nBytes m) ;;
      Ret (Some (u32 (nBytes + u32 (2 + usedData)), m))
  end.

(** The inner loop, [partCount] turns. *)
Fixpoint decodeParts (partCount : nat) (b : slice) (nBytes : Z)
    (m : logMessageString) : outcome (option (Z * logMessageString)) :=
  match partCount with
  | O => Ret (Some (nBytes, m))
  | S partCount' =>
      r <- decodePart b nBytes m ;;
      match r with
      | None => Ret None
      | Some (nBytes, m) => decodeParts partCount' b nBytes m
      end
  end.

(** What one turn of the outer loop leaves: the function returns the
    error, or the loop goes on with a new cursor and [totalSize] and one
    more line. *)
Inductive turn : Type :=
| Abort (e : error)
| Next (nBytes totalSize : Z) (line : string).

(** [BigEndian.Uint16(b[nBytes : nBytes+2])] and
    [BigEndian.Uint32(b[nBytes : nBytes+4])]. *)
Definition readUint16 (b : slice) (nBytes : Z) : outcome Z :=
  bs <- subslice b nBytes (u32 (nBytes + 2)) ;; BigEndian.Uint16 bs.

Definition readUint32 (b : slice) (nBytes : Z) : outcome Z :=
  bs <- subslice b nBytes (u32 (nBytes + 4)) ;; BigEndian.Uint32 bs.

(** A turn of the outer loop from its inner loop on, with [partCount]
    parts left: the parts, the line, the next [totalSize]. *)
Definition restOfMessage (partCount : nat) (b : slice) (nBytes : Z)
    (m : logMessageString) : outcome turn :=
  r <- decodeParts partCount b nBytes m ;;
  match r with
  | None => Ret (Abort errUnknownPartKey)
  | Some (nBytes, m) =>
      totalSize <- readUint32 b nBytes ;;
      Ret (Next nBytes totalSize (String' m))
  end.

(** One turn of the outer loop, for the message at [nBytes]. *)
Definition decodeMessage (b : slice) (separator : string) (nBytes : Z)
  : outcome turn :=
  let nBytes := u32 (nBytes + 4) in
  partCount <- readUint16 b nBytes ;;
  let nBytes := u32 (nBytes + 2) in
  restOfMessage (Z.to_nat partCount) b nBytes
                (mkLogMessageString "" separator).

Definition fileSize (b : slice) : Z := u32 (len b).

Definition newline : string := String "010" EmptyString.

(** The outer loop, from the cursor [nBytes] with [totalSize] read and
    [res] accumulated. *)
Fixpoint walk (fuel : nat) (b : slice) (separator : string)
    (nBytes totalSize : Z) (res : string)
  : option (outcome (string * option error)) :=
  match fuel with
  | O => None
  | S fuel' =>
      if u32 (nBytes + totalSize) <? fileSize b then
        match decodeMessage b separator nBytes with
        | Ret (Next nBytes totalSize line) =>
            walk fuel' b separator nBytes totalSize
                 (res ++ (line ++ newline))%string
        | Ret (Abort e) => Some (Ret (res, Some e))
        | Panic p => Some (Panic p)
        | Fatal e => Some (Fatal e)
        end
      else Some (Ret (res, None))
  end.

(** [NsLoggerParse(b, separator)], with at most [fuel] turns of the outer
    loop. *)
Definition NsLoggerParse (fuel : nat) (b : slice) (separator : string)
  : option (outcome (string * option error)) :=
  let nBytes := 0 in
  match readUint32 b nBytes with
  | Ret totalSize => walk fuel b separator nBytes totalSize ""
  | Panic p => Some (Panic p)
  | Fatal e => Some (Fatal e)
  end.

(** ** Control points of a run

    The places a run of [NsLoggerParse] goes through, with the lines of
    the messages decoded so far: this is the sense in which a message or
    a part of the buffer is one the decoder comes to. *)

Inductive config : Type :=
| AtStart                                      (* before the first read *)
| AtMessage (nBytes totalSize : Z)             (* the test of the outer loop *)
| AtPart (partCount : nat) (nBytes : Z) (m : logMessageString).
                                               (* the test of the inner loop *)

Inductive Reach (b : slice) (separator : string)
  : list string -> config -> Prop :=
| Reach_start : Reach b separator [] AtStart
| Reach_first totalSize :
    Reach b separator [] AtStart ->
    readUint32 b 0 = Ret totalSize ->
    Reach b separator [] (AtMessage 0 totalSize)
| Reach_message lines nBytes totalSize partCount :
    Reach b separator lines (AtMessage nBytes totalSize) ->
    u32 (nBytes + totalSize) < fileSize b ->
    readUint16 b (u32 (nBytes + 4)) = Ret partCount ->
    Reach b separator lines
          (AtPart (Z.to_nat partCount) (u32 (u32 (nBytes + 4) + 2))
                  (mkLogMessageString "" separator))
| Reach_part lines partCount nBytes m nBytes' m' :
    Reach b separator lines (AtPart (S partCount) nBytes m) ->
    decodePart b nBytes m = Ret (Some (nBytes', m')) ->
    Reach b separator lines (AtPart partCount nBytes' m')
| Reach_line lines nBytes m totalSize :
    Reach b separator lines (AtPart 0 nBytes m) ->
    readUint32 b nBytes = Ret totalSize ->
    Reach b separator (lines ++ [String' m])%list (AtMessage nBytes totalSize).

(** The text returned for the lines of the decoded messages. *)
Fixpoint joinLines (lines : list string) : string :=
  match lines with
  | [] => ""
  | line :: lines' => ((line ++ newline) ++ joinLines lines')%string
  end.

Definition failure {A : Type} (o : outcome A)
  : option (outcome (string * option error)) :=
  match o with
  | Ret _ => None
  | Panic p => Some (Panic p)
  | Fatal e => Some (Fatal e)
  end.

(** How the run ends at a control point, if it ends there. *)
Definition halt (b : slice) (lines : list string) (c : config)
  : option (outcome (string * option error)) :=
  match c with
  | AtStart => failure (readUint32 b 0)
  | AtMessage nBytes totalSize =>
      if u32 (nBytes + totalSize) <? fileSize b
      then failure (readUint16 b (u32 (nBytes + 4)))
      else Some (Ret (joinLines lines, None))
  | AtPart (S _) nBytes m =>
      match decodePart b nBytes m with
      | Ret None => Some (Ret (joinLines lines, Some errUnknownPartKey))
      | o => failure o
      end
  | AtPart O nBytes _ => failure (readUint32 b nBytes)
  end.

End Decoder.

(** The keys that have a [case] in the switch of [NsLoggerParse]. *)
Definition recognizedKey (key : Z) : bool :=
  (key =? PartKeyTimestampS) || (key =? PartKeyMessageSeq) ||
  existsb (Z.eqb key) plainKeys.

(** The part types that have a [case] in the switch of [appendValue]. *)
Definition recognizedType (partType : Z) : bool :=
  existsb (Z.eqb partType)
    [PartTypeInt16; PartTypeInt32; PartTypeInt64; PartTypeString;
     PartTypeBinary; PartTypeImage].

(** The run from a control point, with fuel for [S fuel] more tests of the
    outer loop. *)
Definition resume (timeString : Z -> string) (fuel : nat) (b : slice)
    (separator : string) (lines : list string) (c : config)
  : option (outcome (string * option error)) :=
  match c with
  | AtStart => NsLoggerParse timeString (S fuel) b separator
  | AtMessage nBytes totalSize =>
      walk timeString (S fuel) b separator nBytes totalSize (joinLines lines)
  | AtPart partCount nBytes m =>
      match restOfMessage timeString partCount b nBytes m with
      | Ret (Next nBytes totalSize line) =>
          walk timeString fuel b separator nBytes totalSize
               (joinLines lines ++ (line ++ newline))%string
      | Ret (Abort e) => Some (Ret (joinLines lines, Some e))
      | Panic p => Some (Panic p)
      | Fatal e => Some (Fatal e)
      end
  end.

(** A separator that has no [%] in it. *)
Fixpoint noPercent (s : string) : bool :=
  match s with
  | EmptyString => true
  | String c s' => negb (Ascii.eqb c "%") && noPercent s'
  end.

(** ** Buffers used in the examples *)

Module Examples.

(** The record of a message before its first part, for the separator
    ",". *)
Definition m0 : logMessageString := mkLogMessageString "" ",".


(** One part with key TimestampS: type Int32, then type Int64, both
    holding 1700000000. *)
Definition dateInt32 : slice := bytes [x01; x03; x65; x53; xf1; x00].
Definition dateInt64 : slice :=
  bytes [x01; x04; x00; x00; x00; x00; x65; x53; xf1; x00].

(** One part with key MessageSeq: type Int16 holding 7, then type Int32
    holding 7. *)
Definition seqInt16 : slice := bytes [x0a; x02; x00; x07].
Definition seqInt32 : slice := bytes [x0a; x03; x00; x00; x00; x07].


(** A message whose only part has key Message and the type byte 9. *)
Definition badType : slice :=
  bytes [x00; x00; x00; x08; x00; x01; x07; x09; x00; x00; x00; x00].

(** A message whose only part has key TimestampS and type Int16. *)
Definition badDate : slice :=
  bytes [x00; x00; x00; x08; x00; x01; x01; x02; x00; x00; x00; x00].

(** The message "hi" (key Message, type String), then a message whose
    only part has the key 100. *)
Definition thenBadKey : slice :=
  bytes [x00; x00; x00; x0a; x00; x01; x07; x00; x00; x00; x00; x02;
         x68; x69;
         x00; x00; x00; x04; x00; x01; x64; x00].

(** A message with the parts MessageSeq (Int32, 7) and Message ("a"),
    then a message with the part Message ("b"); four zero bytes of
    capacity follow. *)
Definition twoMessages : slice :=
  mkSlice [x00; x00; x00; x0f; x00; x02;
           x0a; x03; x00; x00; x00; x07;
           x07; x00; x00; x00; x00; x01; x61;
           x00; x00; x00; x09; x00; x01;
           x07; x00; x00; x00; x00; x01; x62]
          [x00; x00; x00; x00].

(** A message that declares one String part and stops in its length
    field. *)
Definition truncated : slice :=
  bytes [x00; x00; x00; x05; x00; x01; x07; x00; x00].

(** A buffer shorter than its first totalSize, 9, asks for. *)
Definition tooShort : slice := bytes [x00; x00; x00; x09; x00; x00].

(** A part with key Message and type String that holds "hello". *)
Definition helloPart : slice :=
  bytes [x07; x00; x00; x00; x00; x05; x68; x65; x6c; x6c; x6f].

(** A message whose MessageSeq part, of type String, declares the length
    2^32 - 12: the cursor comes back to 0. *)
Definition backToStart : slice :=
  bytes [x00; x00; x00; x08; x00; x01; x0a; x00; xff; xff; xff; xf4].

End Examples.

(** ** The wire format, written out

    The format that the comment at the head of nsloggerDecode.go describes
    (totalSize, partCount, then for each part its key, its type and its
    data), as the bytes of a message: what a producer writes and the
    decoder reads. *)

Inductive payload : Type :=
| PInt16 (v : Z)
| PInt32 (v : Z)
| PInt64 (v : Z)
| PString (s : string)
| PBinary (d : list byte)
| PImage (d : list byte).

Record part : Type := mkPart {
  partKey : Z;
  partPayload : payload
}.

Definition typeOf (p : payload) : Z :=
  match p with
  | PInt16 _ => PartTypeInt16
  | PInt32 _ => PartTypeInt32
  | PInt64 _ => PartTypeInt64
  | PString _ => PartTypeString
  | PBinary _ => PartTypeBinary
  | PImage _ => PartTypeImage
  end.

(** The data bytes of a part: an integer in two's complement, or the
    partSize and the bytes. *)
Definition encodePayload (p : payload) : list byte :=
  match p with
  | PInt16 v => BigEndian.PutUint16 (v mod 2 ^ 16)
  | PInt32 v => BigEndian.PutUint32 (v mod 2 ^ 32)
  | PInt64 v => BigEndian.PutUint64 (v mod 2 ^ 64)
  | PString s =>
      (BigEndian.PutUint32 (Z.of_nat (List.length (list_byte_of_string s)))
       ++ list_byte_of_string s)%list
  | PBinary d | PImage d =>
      (BigEndian.PutUint32 (Z.of_nat (List.length d)) ++ d)%list
  end.

Definition encodePart (p : part) : list byte :=
  ([byteOfZ (partKey p); byteOfZ (typeOf (partPayload p))]
   ++ encodePayload (partPayload p))%list.

Definition encodeParts (ps : list part) : list byte :=
  List.concat (map encodePart ps).

Definition encodeMessage (ps : list part) : list byte :=
  (BigEndian.PutUint32 (2 + Z.of_nat (List.length (encodeParts ps)))
   ++ BigEndian.PutUint16 (Z.of_nat (List.length ps))
   ++ encodeParts ps)%list.

Definition encodeStream (msgs : list (list part)) : list byte :=
  List.concat (map encodeMessage msgs).

(** The parts the decoder takes without ending the process: a key with a
    case, an integer that fits its type, and for the keys TimestampS and
    MessageSeq one of the types their functions handle. *)
Definition okPayload (p : payload) : Prop :=
  match p with
  | PInt16 v => - 2 ^ 15 <= v < 2 ^ 15
  | PInt32 v => - 2 ^ 31 <= v < 2 ^ 31
  | PInt64 v => - 2 ^ 63 <= v < 2 ^ 63
  | PString _ | PBinary _ | PImage _ => True
  end.

Definition dateOrSeqPayload (p : payload) : Prop :=
  match p with
  | PInt32 _ | PInt64 _ | PString _ => True
  | PInt16 _ | PBinary _ | PImage _ => False
  end.

Definition okPart (p : part) : Prop :=
  okPayload (partPayload p) /\
  (In (partKey p) plainKeys \/
   ((partKey p = PartKeyTimestampS \/ partKey p = PartKeyMessageSeq) /\
    dateOrSeqPayload (partPayload p))).

Definition okMessage (ps : list part) : Prop :=
  Forall okPart ps /\ Z.of_nat (List.length ps) < 2 ^ 16.

(** The [add...] call of [appendValue] for a part. *)
Definition addPayload {M : Type} `{logMessage M} (m : M) (p : payload) : M :=
  match p with
  | PInt16 v => addInt16 m v
  | PInt32 v => addInt32 m v
  | PInt64 v => addInt64 m v
  | PString s => addString m s
  | PBinary _ | PImage _ => m
  end.

(** What a part adds to the record of its message, read off
    [NsLoggerParse], [readDate] and [appendValue]. *)
Definition renderPart (timeString : Z -> string) (m : logMessageString)
    (p : part) : logMessageString :=
  if partKey p =? PartKeyTimestampS then
    match partPayload p with
    | PInt32 v => addString m (fmt.decimal v)
    | PInt64 v => addString m (timeString v)
    | PString s => addString m s
    | _ => m
    end
  else if partKey p =? PartKeyMessageSeq then m
  else addPayload m (partPayload p).

Definition renderMessage (timeString : Z -> string) (separator : string)
    (ps : list part) : string :=
  String' (fold_left (renderPart timeString) ps
                     (mkLogMessageString "" separator)).

(** ** The lines of the output *)



(** Where a turn of the inner loop ends the process. *)
Definition fatalAt (key ty : Z) (e : error) : Prop :=
  (In key plainKeys /\ recognizedType ty = false /\ e = errUnknownPartType)
  \/ (key = PartKeyTimestampS /\
      ~ In ty [PartTypeInt32; PartTypeInt64; PartTypeString] /\
      e = errDateNotParsed)
  \/ (key = PartKeyMessageSeq /\
      ~ In ty [PartTypeInt32; PartTypeInt64; PartTypeString] /\
      e = errSkipNotHandled).


(** ** The command of the README

    [main] of the program that the README gives: the arguments of the
    command, [ioutil.ReadFile] and [ioutil.WriteFile] are taken as
    given; what it returns is the file it has written.  The slice that
    [ReadFile] returns has the capacity that the library gave it. *)
Definition main (timeString : Z -> string) (fuel : nat) (Args : list string)
    (ReadFile : string -> error + slice)
    (WriteFile : string -> string -> option error)
  : option (outcome (string * string)) :=
  match nth_error Args 1 with
  | None => Some (Panic IndexOutOfRange)
  | Some filename =>
      let separator :=
        if (List.length Args =? 3)%nat then nth 2 Args "" else "," in
      match ReadFile filename with
      | inl err => Some (Fatal err)
      | inr data =>
          match NsLoggerParse timeString fuel data separator with
          | Some (Ret (parsedDataStr, None)) =>
              let outputFilename := (filename ++ ".txt")%string in
              match WriteFile outputFilename parsedDataStr with
              | Some err => Some (Fatal err)
              | None => Some (Ret (outputFilename, parsedDataStr))
              end
          | Some (Ret (_, Some err)) => Some (Fatal err)
          | Some (Panic p) => Some (Panic p)
          | Some (Fatal e) => Some (Fatal e)
          | None => None
          end
      end
  end.

(** ** Streams used in the examples *)

Module Streams.

(** Two messages in the wire format: a date (Int64), a sequence number
    and the text "hi"; then a thread id of -2 and one byte of binary
    data. *)
Definition stream2 : list (list part) :=
  [[mkPart PartKeyTimestampS (PInt64 1700000000);
    mkPart PartKeyMessageSeq (PInt32 7);
    mkPart PartKeyMessage (PString "hi")];
   [mkPart PartKeyThreadId (PInt16 (-2));
    mkPart PartKeyMessage (PBinary [x01])]].

(** The one message "hi". *)
Definition streamHi : list (list part) :=
  [[mkPart PartKeyMessage (PString "hi")]].

(** A part of type Int32 cut after two bytes of its data. *)
Definition cutInt32 : slice := bytes [x07; x03; x00; x00].

(** A file system with one content for every name, and a disk that takes
    every file. *)
Definition readAs (data : slice) : string -> error + slice :=
  fun _ => inr data.

Definition writeOk : string -> string -> option error := fun _ _ => None.

(** A message whose partCount is 1 in a buffer that ends before the
    part, and one whose part has its key, 7, at the last byte. *)
Definition noPart : slice := bytes [x00; x00; x00; x02; x00; x01].

Definition keyOnly : slice := bytes [x00; x00; x00; x03; x00; x01; x07].

End Streams.

(** * Properties *)

(** ** Strings and lines *)

Lemma append_assoc (s1 s2 s3 : string) :
  ((s1 ++ s2) ++ s3 = s1 ++ (s2 ++ s3))%string.
Proof. induction s1 as [|c s1 IH]; simpl; [reflexivity | now rewrite IH]. Qed.

Lemma append_empty_r (s : string) : (s ++ "" = s)%string.
Proof. induction s as [|c s IH]; simpl; [reflexivity | now rewrite IH]. Qed.

Lemma joinLines_app (lines : list string) (line : string) :
  joinLines (lines ++ [line]) = (joinLines lines ++ (line ++ newline))%string.
Proof.
  induction lines as [|l lines IH]; cbn [joinLines List.app].
  - now rewrite append_empty_r.
  - now rewrite IH, !append_assoc.
Qed.

(** ** The run and its control points *)

Section Adequacy.

Variable timeString : Z -> string.
Variable b : slice.
Variable separator : string.

Let reach := Reach timeString b separator.
Let run fuel := NsLoggerParse timeString fuel b separator.

Lemma reach_resume lines c :
  reach lines c ->
  forall fuel,
    resume timeString fuel b separator lines c
    = run (S (fuel + List.length lines)).
Proof.
  unfold reach, run.
  induction 1 as [ | T _ _ HT | lines n T pc _ IH Hlt Hpc
                 | lines k n m n' m' _ IH Hpart | lines n m T _ IH HT ];
    intro fuel.
  - simpl. now rewrite Nat.add_0_r.
  - simpl List.length. rewrite Nat.add_0_r.
    unfold resume, NsLoggerParse. now rewrite HT.
  - rewrite <- IH. unfold resume.
    cbn [walk]. apply Z.ltb_lt in Hlt. rewrite Hlt.
    unfold decodeMessage. rewrite Hpc. reflexivity.
  - rewrite <- IH. unfold resume, restOfMessage.
    cbn [decodeParts bind]. rewrite Hpart. reflexivity.
  - rewrite length_app. simpl List.length.
    replace (S (fuel + (List.length lines + 1)))
      with (S (S fuel + List.length lines)) by lia.
    rewrite <- IH. unfold resume, restOfMessage.
    cbn [decodeParts bind]. rewrite HT. cbn [bind].
    now rewrite joinLines_app.
Qed.

Lemma halt_resume lines c r :
  halt timeString b lines c = Some r ->
  forall fuel, resume timeString fuel b separator lines c = Some r.
Proof.
  intros Hh fuel. destruct c as [ | n T | [|k] n m ]; simpl in Hh.
  - unfold resume, NsLoggerParse.
    destruct (readUint32 b 0); simpl in Hh; congruence.
  - unfold resume. cbn [walk].
    destruct (u32 (n + T) <? fileSize b); [|exact Hh].
    unfold decodeMessage.
    destruct (readUint16 b (u32 (n + 4))); simpl in Hh |- *; congruence.
  - unfold resume, restOfMessage. cbn [decodeParts bind].
    destruct (readUint32 b n); simpl in Hh |- *; congruence.
  - unfold resume, restOfMessage. cbn [decodeParts bind].
    destruct (decodePart timeString b n m) as [[[n' m']|]| |];
      simpl in Hh |- *; congruence.
Qed.

(** A run that comes to a control point where it ends returns what
    [halt] says, whatever fuel it has beyond one test per line. *)
Lemma run_complete lines c r :
  reach lines c ->
  halt timeString b lines c = Some r ->
  forall fuel, (List.length lines < fuel)%nat -> run fuel = Some r.
Proof.
  intros Hr Hh fuel Hf.
  replace fuel with (S ((fuel - S (List.length lines)) + List.length lines))
    by lia.
  rewrite <- (reach_resume _ _ Hr). now apply halt_resume.
Qed.

(** How a turn ends the run, if it does. *)
Let ends (res : string) (o : outcome turn) :=
  match o with
  | Ret (Next _ _ _) => None
  | Ret (Abort e) => Some (Ret (res, Some e))
  | Panic p => Some (Panic p)
  | Fatal e => Some (Fatal e)
  end.

Lemma parts_sound lines k :
  forall n m,
    reach lines (AtPart k n m) ->
    (exists n' T' line,
        restOfMessage timeString k b n m = Ret (Next n' T' line) /\
        reach (lines ++ [line])%list (AtMessage n' T'))
    \/ (exists c r,
        reach lines c /\ halt timeString b lines c = Some r /\
        ends (joinLines lines) (restOfMessage timeString k b n m) = Some r).
Proof.
  induction k as [|k IH]; intros n m Hr.
  - unfold restOfMessage. cbn [decodeParts bind].
    destruct (readUint32 b n) as [T|p|e] eqn:HT.
    + left. exists n, T, (String' m). split; [reflexivity|].
      eapply Reach_line; eassumption.
    + right. exists (AtPart 0 n m), (Panic p). simpl. rewrite HT. auto.
    + right. exists (AtPart 0 n m), (Fatal e). simpl. rewrite HT. auto.
  - unfold restOfMessage. cbn [decodeParts bind].
    destruct (decodePart timeString b n m) as [[[n' m']|]|p|e] eqn:Hp.
    + cbn [bind]. apply (IH n' m'). eapply Reach_part; eassumption.
    + right. eexists (AtPart (S k) n m), _. simpl. rewrite Hp. auto.
    + right. eexists (AtPart (S k) n m), _. simpl. rewrite Hp. auto.
    + right. eexists (AtPart (S k) n m), _. simpl. rewrite Hp. auto.
Qed.

Lemma walk_sound fuel :
  forall lines n T r,
    reach lines (AtMessage n T) ->
    walk timeString fuel b separator n T (joinLines lines) = Some r ->
    exists lines' c,
      reach lines' c /\ halt timeString b lines' c = Some r /\
      (List.length lines' < fuel + List.length lines)%nat.
Proof.
  induction fuel as [|fuel IH]; intros lines n T r Hr Hw; [discriminate|].
  cbn [walk] in Hw.
  destruct (u32 (n + T) <? fileSize b) eqn:Hlt.
  - unfold decodeMessage in Hw.
    destruct (readUint16 b (u32 (n + 4))) as [pc|p|e] eqn:Hpc.
    + cbn [bind] in Hw. apply Z.ltb_lt in Hlt.
      pose proof (Reach_message _ _ _ _ _ _ _ Hr Hlt Hpc) as Hr'.
      destruct (parts_sound _ _ _ _ Hr')
        as [(n' & T' & line & Hrest & Hr'')|(c & r' & Hc & Hh & He)].
      * rewrite Hrest in Hw. rewrite <- joinLines_app in Hw.
        destruct (IH _ _ _ _ Hr'' Hw) as (lines' & c & Hc & Hh & Hlen).
        exists lines', c. repeat split; try assumption.
        rewrite length_app in Hlen. simpl in Hlen. lia.
      * exists lines, c. repeat split; try assumption; [|lia].
        rewrite Hh. unfold ends in He.
        destruct (restOfMessage timeString (Z.to_nat pc) b
                    (u32 (u32 (n + 4) + 2))
                    (mkLogMessageString "" separator)) as [[e|? ? ?]|p|e];
          congruence.
    + exists lines, (AtMessage n T). cbn [bind] in Hw.
      repeat split; [assumption| |lia]. simpl. now rewrite Hlt, Hpc.
    + exists lines, (AtMessage n T). cbn [bind] in Hw.
      repeat split; [assumption| |lia]. simpl. now rewrite Hlt, Hpc.
  - exists lines, (AtMessage n T).
    repeat split; [assumption| |lia]. simpl. now rewrite Hlt.
Qed.

(** Whatever a run returns, it returns at a control point it came to. *)
Lemma run_sound fuel r :
  run fuel = Some r ->
  exists lines c,
    reach lines c /\ halt timeString b lines c = Some r /\
    (List.length lines <= fuel)%nat.
Proof.
  unfold run, NsLoggerParse. intro Hrun.
  destruct (readUint32 b 0) as [T|p|e] eqn:HT.
  - assert (Hr : reach [] (AtMessage 0 T))
      by (apply Reach_first; [apply Reach_start | exact HT]).
    destruct (walk_sound _ _ _ _ _ Hr Hrun) as (lines & c & Hc & Hh & Hlen).
    exists lines, c. repeat split; try assumption. simpl in Hlen. lia.
  - exists [], AtStart. repeat split; [apply Reach_start| |simpl; lia].
    simpl. rewrite HT. assumption.
  - exists [], AtStart. repeat split; [apply Reach_start| |simpl; lia].
    simpl. rewrite HT. assumption.
Qed.


Lemma walk_next fuel n T res n' T' line :
  u32 (n + T) < fileSize b ->
  decodeMessage timeString b separator n = Ret (Next n' T' line) ->
  walk timeString (S fuel) b separator n T res
  = walk timeString fuel b separator n' T' (res ++ (line ++ newline))%string.
Proof.
  intros Hlt Hm. cbn [walk]. apply Z.ltb_lt in Hlt. now rewrite Hlt, Hm.
Qed.

(** The fuel does not change what a run returns. *)
Lemma run_fuel_mono fuel fuel' r :
  run fuel = Some r -> (fuel <= fuel')%nat -> run fuel' = Some r.
Proof.
  intros Hrun Hle.
  destruct (Nat.eq_dec fuel fuel') as [<-|Hne]; [assumption|].
  destruct (run_sound _ _ Hrun) as (lines & c & Hc & Hh & Hlen).
  apply (run_complete _ _ _ Hc Hh). lia.
Qed.

(** The only error a run returns is the one of the default case of the
    switch on the key. *)
Lemma returned_error fuel res e :
  run fuel = Some (Ret (res, Some e)) ->
  e = errUnknownPartKey /\
  exists lines partCount n m,
    reach lines (AtPart (S partCount) n m) /\
    decodePart timeString b n m = Ret None /\
    res = joinLines lines.
Proof.
  intro Hrun.
  destruct (run_sound _ _ Hrun) as (lines & c & Hr & Hh & _).
  destruct c as [ | n T | [|k] n m ]; simpl in Hh.
  - destruct (readUint32 b 0); discriminate.
  - destruct (u32 (n + T) <? fileSize b); [|discriminate].
    destruct (readUint16 b (u32 (n + 4))); discriminate.
  - destruct (readUint32 b n); discriminate.
  - destruct (decodePart timeString b n m) as [[[n' m']|]| |] eqn:Hp;
      try discriminate.
    injection Hh as <- <-. split; [reflexivity|].
    exists lines, k, n, m. auto.
Qed.

End Adequacy.

(** ** Machine integers *)

Lemma u32_range (z : Z) : 0 <= u32 z < 2 ^ 32.
Proof. unfold u32. apply Z.mod_pos_bound. lia. Qed.

Lemma u32_small (z : Z) : 0 <= z < 2 ^ 32 -> u32 z = z.
Proof. unfold u32. apply Z.mod_small. Qed.

Lemma u32_add_r (x y : Z) : u32 (x + u32 y) = u32 (x + y).
Proof. unfold u32. apply Zplus_mod_idemp_r. Qed.


Lemma byteZ_range (x : byte) : 0 <= byteZ x < 256.
Proof.
  unfold byteZ. pose proof (Byte.to_N_bounded x). lia.
Qed.

(** ** The switch on the key *)

Lemma plainKeys_not_special (key : Z) :
  In key plainKeys ->
  (key =? PartKeyTimestampS) = false /\ (key =? PartKeyMessageSeq) = false.
Proof.
  unfold plainKeys. simpl.
  intros H; repeat (destruct H as [<-|H]; [split; reflexivity|]);
    contradiction.
Qed.

Lemma keySwitch_plain timeString b n key :
  In key plainKeys -> keySwitch timeString b n key = Ret (Some (0, "")).
Proof.
  intro Hin. destruct (plainKeys_not_special _ Hin) as [H1 H10].
  unfold keySwitch. rewrite H1, H10.
  replace (existsb (Z.eqb key) plainKeys) with true; [reflexivity|].
  symmetry. apply existsb_exists. exists key. split; [assumption|].
  apply Z.eqb_refl.
Qed.

Lemma keySwitch_seq timeString b n :
  keySwitch timeString b n PartKeyMessageSeq =
  (usedData <- skipPart b n ;; Ret (Some (usedData, ""))).
Proof. reflexivity. Qed.

Lemma keySwitch_date timeString b n :
  keySwitch timeString b n PartKeyTimestampS =
  (r <- readDate timeString b n ;; Ret (Some r)).
Proof. reflexivity. Qed.

Lemma keySwitch_unrecognized timeString b n key :
  recognizedKey key = false -> keySwitch timeString b n key = Ret None.
Proof.
  unfold recognizedKey, keySwitch. intro H.
  apply orb_false_iff in H as [H H3]. apply orb_false_iff in H as [H1 H2].
  now rewrite H1, H2, H3.
Qed.

Lemma keySwitch_default timeString b n key :
  keySwitch timeString b n key = Ret None -> recognizedKey key = false.
Proof.
  unfold recognizedKey, keySwitch.
  destruct (key =? PartKeyTimestampS).
  - destruct (readDate timeString b n); discriminate.
  - destruct (key =? PartKeyMessageSeq).
    + destruct (skipPart b n); discriminate.
    + destruct (existsb (Z.eqb key) plainKeys); [discriminate|reflexivity].
Qed.

Lemma user_defined_unrecognized (key : Z) :
  PartKeyUserDefined <= key -> recognizedKey key = false.
Proof.
  unfold PartKeyUserDefined, recognizedKey, plainKeys. cbn [existsb]. intro H.
  repeat (apply orb_false_iff; split); try reflexivity;
    apply Z.eqb_neq; cbv; intro E; subst key; lia.
Qed.

(** The turn of the inner loop at a part whose key has no case. *)
Lemma decodePart_unknown_key timeString b n m key :
  index b n = Ret key ->
  recognizedKey (byteZ key) = false ->
  decodePart timeString b n m = Ret None.
Proof.
  intros Hk Hr. unfold decodePart. rewrite Hk. cbn [bind].
  now rewrite (keySwitch_unrecognized _ _ _ _ Hr).
Qed.

(** The error of the default case is the only one [decodePart] returns. *)
Lemma decodePart_abort timeString b n m :
  decodePart timeString b n m = Ret None ->
  exists key, index b n = Ret key /\ recognizedKey (byteZ key) = false.
Proof.
  unfold decodePart. destruct (index b n) as [key| |]; try discriminate.
  cbn [bind].
  destruct (keySwitch timeString b n (byteZ key)) as [[[u s]|]| |] eqn:Hs;
    try discriminate.
  - cbn [bind].
    destruct (if negb (u =? 0) then Ret (u, addString m s)
              else appendValue b n m) as [[u' m']| |]; discriminate.
  - intros _. exists key. split; [reflexivity|].
    eapply keySwitch_default; eassumption.
Qed.

(** ** The part decoders, by part type *)

Section PartTypes.

Context {M : Type} `{logMessage M}.
Variable b : slice.
Variable n : Z.
Variable ty : byte.
Hypothesis Hty : index b (u32 (n + 1)) = Ret ty.


Lemma appendValue_unknown_type (m : M) :
  recognizedType (byteZ ty) = false ->
  appendValue b n m = Fatal errUnknownPartType.
Proof.
  unfold recognizedType. cbn [existsb]. intro Hr.
  repeat (apply orb_false_iff in Hr as [?E Hr]).
  unfold appendValue. rewrite Hty. cbn [bind].
  rewrite E, E0, E1, E2, E3, E4. reflexivity.
Qed.

Lemma skipPart_int32 : byteZ ty = PartTypeInt32 -> skipPart b n = Ret 4.
Proof. intro E. unfold skipPart. rewrite Hty. cbn [bind]. now rewrite E. Qed.

Lemma skipPart_int64 : byteZ ty = PartTypeInt64 -> skipPart b n = Ret 8.
Proof. intro E. unfold skipPart. rewrite Hty. cbn [bind]. now rewrite E. Qed.

Lemma skipPart_string (size : Z) :
  byteZ ty = PartTypeString ->
  lengthField b n = Ret size ->
  skipPart b n = Ret (u32 (size + 4)).
Proof.
  intros E Hl. unfold skipPart. rewrite Hty. cbn [bind]. rewrite E. cbn.
  now rewrite Hl.
Qed.

Lemma skipPart_not_handled :
  ~ In (byteZ ty) [PartTypeInt32; PartTypeInt64; PartTypeString] ->
  skipPart b n = Fatal errSkipNotHandled.
Proof.
  intro Hn. unfold skipPart. rewrite Hty. cbn [bind].
  destruct (Z.eqb_spec (byteZ ty) PartTypeInt32) as [E|_];
    [exfalso; apply Hn; simpl; auto|].
  destruct (Z.eqb_spec (byteZ ty) PartTypeInt64) as [E|_];
    [exfalso; apply Hn; simpl; auto|].
  destruct (Z.eqb_spec (byteZ ty) PartTypeString) as [E|_];
    [exfalso; apply Hn; simpl; auto|].
  reflexivity.
Qed.

Lemma readDate_not_parsed timeString :
  ~ In (byteZ ty) [PartTypeInt32; PartTypeInt64; PartTypeString] ->
  readDate timeString b n = Fatal errDateNotParsed.
Proof.
  intro Hn. unfold readDate. rewrite Hty. cbn [bind].
  destruct (Z.eqb_spec (byteZ ty) PartTypeInt32) as [E|_];
    [exfalso; apply Hn; simpl; auto|].
  destruct (Z.eqb_spec (byteZ ty) PartTypeInt64) as [E|_];
    [exfalso; apply Hn; simpl; auto|].
  destruct (Z.eqb_spec (byteZ ty) PartTypeString) as [E|_];
    [exfalso; apply Hn; simpl; auto|].
  reflexivity.
Qed.

End PartTypes.

(** ** The turn of the inner loop, by key and part type *)

Section Parts.

Variable timeString : Z -> string.
Variable b : slice.
Variable n : Z.
Variable m : logMessageString.
Variables key ty : byte.
Hypothesis Hkey : index b n = Ret key.
Hypothesis Hty : index b (u32 (n + 1)) = Ret ty.

Lemma addString_empty (t : logMessageString) : addString t "" = t.
Proof. reflexivity. Qed.

(** A part that [skipPart] gives a size other than 0 leaves the record as
    it is and moves the cursor past the part. *)
Lemma decodePart_skipped (size : Z) :
  byteZ key = PartKeyMessageSeq ->
  skipPart b n = Ret size ->
  0 < size < 2 ^ 32 ->
  decodePart timeString b n m = Ret (Some (u32 (n + 2 + size), m)).
Proof.
  intros Ek Hs Hsize. unfold decodePart. rewrite Hkey. cbn [bind].
  rewrite Ek, keySwitch_seq, Hs. cbn [bind].
  replace (size =? 0) with false by (symmetry; apply Z.eqb_neq; lia).
  cbn [negb bind]. rewrite addString_empty.
  now rewrite u32_add_r, Z.add_assoc.
Qed.

Lemma decodePart_skip_fatal :
  byteZ key = PartKeyMessageSeq ->
  ~ In (byteZ ty) [PartTypeInt32; PartTypeInt64; PartTypeString] ->
  decodePart timeString b n m = Fatal errSkipNotHandled.
Proof.
  intros Ek Hn. unfold decodePart. rewrite Hkey. cbn [bind].
  rewrite Ek, keySwitch_seq.
  now rewrite (skipPart_not_handled b n ty Hty Hn).
Qed.

Lemma decodePart_date_fatal :
  byteZ key = PartKeyTimestampS ->
  ~ In (byteZ ty) [PartTypeInt32; PartTypeInt64; PartTypeString] ->
  decodePart timeString b n m = Fatal errDateNotParsed.
Proof.
  intros Ek Hn. unfold decodePart. rewrite Hkey. cbn [bind].
  rewrite Ek, keySwitch_date.
  now rewrite (readDate_not_parsed b n ty Hty timeString Hn).
Qed.

(** A key whose case is empty hands the part to [appendValue]. *)
Lemma decodePart_plain :
  In (byteZ key) plainKeys ->
  decodePart timeString b n m =
  ('(usedData, m') <- appendValue b n m ;;
   Ret (Some (u32 (n + u32 (2 + usedData)), m'))).
Proof.
  intro Hin. unfold decodePart. rewrite Hkey. cbn [bind].
  now rewrite (keySwitch_plain timeString b n _ Hin).
Qed.

Lemma decodePart_type_fatal :
  In (byteZ key) plainKeys ->
  recognizedType (byteZ ty) = false ->
  decodePart timeString b n m = Fatal errUnknownPartType.
Proof.
  intros Hin Hr. rewrite (decodePart_plain Hin).
  now rewrite (appendValue_unknown_type b n ty Hty m Hr).
Qed.

End Parts.

(** ** The frame walker *)

(** C5: when the decoder comes to a part whose key byte has no case in the
    switch (a key of 100 or more is one), [NsLoggerParse] returns the error
    "Unkown part key" and the text of the lines of the messages before: the
    message of that part gives no line and nothing after it is decoded. *)
Theorem unknown_part_key_aborts
    (timeString : Z -> string) (b : slice) (separator : string)
    (lines : list string) (partCount : nat) (n : Z) (m : logMessageString)
    (key : byte) :
  Reach timeString b separator lines (AtPart (S partCount) n m) ->
  index b n = Ret key ->
  recognizedKey (byteZ key) = false \/ PartKeyUserDefined <= byteZ key ->
  forall fuel, (List.length lines < fuel)%nat ->
    NsLoggerParse timeString fuel b separator
    = Some (Ret (joinLines lines, Some errUnknownPartKey)).
Proof.
  intros Hr Hk Hun fuel Hf.
  assert (Hrec : recognizedKey (byteZ key) = false)
    by (destruct Hun; [assumption | now apply user_defined_unrecognized]).
  apply (run_complete _ _ _ _ _ _ Hr); [|assumption].
  simpl. now rewrite (decodePart_unknown_key _ _ _ _ _ Hk Hrec).
Qed.



(** ** Big-endian fields *)

Lemma lor_shiftl_add (x y k : Z) :
  0 <= k -> 0 <= x < 2 ^ k -> Z.lor x (Z.shiftl y k) = x + y * 2 ^ k.
Proof.
  intros Hk Hx. rewrite <- Z.shiftl_mul_pow2 by assumption.
  rewrite <- Z.add_lor_land.
  replace (Z.land x (Z.shiftl y k)) with 0; [lia|].
  symmetry. apply Z.bits_inj'. intros i Hi.
  rewrite Z.land_spec, Z.bits_0.
  destruct (Z.lt_ge_cases i k) as [Hlt|Hge].
  - rewrite (Z.shiftl_spec_low y k i Hlt). apply andb_false_r.
  - rewrite <- (Z.mod_small x (2 ^ k)) by assumption.
    rewrite Z.mod_pow2_bits_high by lia. reflexivity.
Qed.

Lemma Uint16_value (b0 b1 : byte) (l : list byte) :
  BigEndian.Uint16 (b0 :: b1 :: l) = Ret (byteZ b1 + byteZ b0 * 2 ^ 8).
Proof.
  cbv beta iota delta [BigEndian.Uint16]. pose proof (byteZ_range b1).
  rewrite lor_shiftl_add by lia. reflexivity.
Qed.

Lemma Uint32_value (b0 b1 b2 b3 : byte) (l : list byte) :
  BigEndian.Uint32 (b0 :: b1 :: b2 :: b3 :: l)
  = Ret (byteZ b3 + byteZ b2 * 2 ^ 8 + byteZ b1 * 2 ^ 16 + byteZ b0 * 2 ^ 24).
Proof.
  cbv beta iota delta [BigEndian.Uint32].
  pose proof (byteZ_range b0). pose proof (byteZ_range b1).
  pose proof (byteZ_range b2). pose proof (byteZ_range b3).
  rewrite (lor_shiftl_add (byteZ b3)) by lia.
  rewrite (lor_shiftl_add (byteZ b3 + _)) by lia.
  rewrite (lor_shiftl_add (byteZ b3 + _ + _)) by lia.
  reflexivity.
Qed.

Lemma Uint32_range (l : list byte) (v : Z) :
  BigEndian.Uint32 l = Ret v -> 0 <= v < 2 ^ 32.
Proof.
  destruct l as [|b0 [|b1 [|b2 [|b3 l]]]]; try discriminate.
  rewrite Uint32_value. intro E. injection E as <-.
  pose proof (byteZ_range b0). pose proof (byteZ_range b1).
  pose proof (byteZ_range b2). pose proof (byteZ_range b3). lia.
Qed.

Lemma byteZ_byteOfZ (v : Z) : byteZ (byteOfZ v) = v mod 2 ^ 8.
Proof.
  unfold byteZ, byteOfZ. change 255 with (Z.ones 8).
  rewrite Z.land_ones by lia.
  pose proof (Z.mod_pos_bound v (2 ^ 8) ltac:(lia)) as Hb.
  destruct (Byte.of_N (Z.to_N (v mod 2 ^ 8))) as [x|] eqn:E.
  - apply Byte.to_of_N in E. rewrite E. lia.
  - apply Byte.of_N_None_iff in E. lia.
Qed.

Lemma Uint32_PutUint32 (v : Z) :
  0 <= v < 2 ^ 32 -> BigEndian.Uint32 (BigEndian.PutUint32 v) = Ret v.
Proof.
  intro Hv. unfold BigEndian.PutUint32. rewrite Uint32_value.
  rewrite !byteZ_byteOfZ. rewrite !Z.shiftr_div_pow2 by lia. f_equal.
  change (2 ^ 8) with 256. change (2 ^ 16) with 65536.
  change (2 ^ 24) with 16777216. change (2 ^ 32) with 4294967296 in Hv.
  Z.div_mod_to_equations. lia.
Qed.

(** ** Slices *)

Lemma subslice_length (b : slice) (lo hi : Z) (bs : list byte) :
  subslice b lo hi = Ret bs -> List.length bs = Z.to_nat (hi - lo).
Proof.
  unfold subslice, cap.
  destruct ((0 <=? lo) && (lo <=? hi) && (hi <=? _)) eqn:E; [|discriminate].
  apply andb_true_iff in E as [E E3]. apply andb_true_iff in E as [E1 E2].
  apply Z.leb_le in E1, E2, E3. intro H. injection H as <-.
  rewrite length_firstn, length_skipn, length_app. lia.
Qed.

Lemma subslice_out_of_range (b : slice) (lo hi : Z) :
  cap b < hi -> subslice b lo hi = Panic SliceBoundsOutOfRange.
Proof.
  intro H. unfold subslice.
  replace (hi <=? cap b) with false by (symmetry; apply Z.leb_gt; lia).
  now rewrite andb_false_r.
Qed.

Lemma subslice_in_range (b : slice) (lo hi : Z) :
  0 <= lo <= hi -> hi <= cap b -> exists bs, subslice b lo hi = Ret bs.
Proof.
  intros [H1 H2] H3. unfold subslice.
  apply Z.leb_le in H1, H2, H3. rewrite H1, H2, H3. simpl. eauto.
Qed.

Lemma lengthField_range (b : slice) (n size : Z) :
  lengthField b n = Ret size -> 0 <= size < 2 ^ 32.
Proof.
  unfold lengthField.
  destruct (subslice b (u32 (n + 2)) (u32 (n + 6))); try discriminate.
  apply Uint32_range.
Qed.

Lemma readUint32_range (b : slice) (n v : Z) :
  readUint32 b n = Ret v -> 0 <= v < 2 ^ 32.
Proof.
  unfold readUint32.
  destruct (subslice b n (u32 (n + 4))); try discriminate.
  apply Uint32_range.
Qed.

(** With four bytes of capacity the first [totalSize] can be read, and not
    with less. *)
Lemma readUint32_first (b : slice) :
  4 <= cap b -> exists totalSize, readUint32 b 0 = Ret totalSize.
Proof.
  intro Hc. unfold readUint32. change (u32 (0 + 4)) with 4.
  destruct (subslice_in_range b 0 4 ltac:(lia) Hc) as [bs Hbs].
  rewrite Hbs. cbn [bind].
  apply subslice_length in Hbs. change (Z.to_nat (4 - 0)) with 4%nat in Hbs.
  destruct bs as [|b0 [|b1 [|b2 [|b3 l]]]]; try discriminate.
  rewrite Uint32_value. eauto.
Qed.

Lemma readUint32_first_panics (b : slice) :
  cap b < 4 -> readUint32 b 0 = Panic SliceBoundsOutOfRange.
Proof.
  intro Hc. unfold readUint32. change (u32 (0 + 4)) with 4.
  now rewrite subslice_out_of_range.
Qed.

(** ** Claims on the part decoders *)

(** C3, as amended: a part with key MessageSeq and type Int32, Int64 or
    String leaves the record of its message as it is, so that nothing of it
    is in the line, and moves the cursor by 2 + 4, 2 + 8 or 2 + 4 + n bytes
    (in [uint32] arithmetic), n being the declared length, which need not
    lie in the buffer; for any other type byte the process ends through
    [log.Fatal] with "Skipping not handled for that part type". *)
Theorem message_seq_is_skipped
    (timeString : Z -> string) (b : slice) (n : Z) (m : logMessageString)
    (key ty : byte) :
  index b n = Ret key ->
  byteZ key = PartKeyMessageSeq ->
  index b (u32 (n + 1)) = Ret ty ->
  (byteZ ty = PartTypeInt32 ->
   decodePart timeString b n m = Ret (Some (u32 (n + 2 + 4), m))) /\
  (byteZ ty = PartTypeInt64 ->
   decodePart timeString b n m = Ret (Some (u32 (n + 2 + 8), m))) /\
  (byteZ ty = PartTypeString ->
   forall size, lengthField b n = Ret size -> size + 4 < 2 ^ 32 ->
   decodePart timeString b n m = Ret (Some (u32 (n + 2 + (4 + size)), m))) /\
  (~ In (byteZ ty) [PartTypeInt32; PartTypeInt64; PartTypeString] ->
   decodePart timeString b n m = Fatal errSkipNotHandled).
Proof.
  intros Hk Ek Ht. repeat split.
  - intro E. apply (decodePart_skipped _ _ _ _ _ Hk 4 Ek); [|lia].
    now apply (skipPart_int32 b n ty).
  - intro E. apply (decodePart_skipped _ _ _ _ _ Hk 8 Ek); [|lia].
    now apply (skipPart_int64 b n ty).
  - intros E size Hl Hs. pose proof (lengthField_range _ _ _ Hl) as Hr.
    apply (decodePart_skipped _ _ _ _ _ Hk (4 + size) Ek); [|lia].
    rewrite (skipPart_string b n ty Ht size E Hl).
    rewrite u32_small by lia. f_equal. lia.
  - intro Hn. now apply (decodePart_skip_fatal _ _ _ _ key ty).
Qed.


(** C4, as amended: when the decoder comes to a part whose key has an empty
    case and whose type byte has no case in [appendValue], or to a
    TimestampS part whose type is not Int32, Int64 or String, the process
    ends through [log.Fatal]: [NsLoggerParse] does not return, neither a
    text nor an error.  The one error it ever returns is "Unkown part
    key". *)
Theorem type_errors_end_the_process
    (timeString : Z -> string) (b : slice) (separator : string)
    (lines : list string) (partCount : nat) (n : Z) (m : logMessageString)
    (key ty : byte) :
  Reach timeString b separator lines (AtPart (S partCount) n m) ->
  index b n = Ret key ->
  index b (u32 (n + 1)) = Ret ty ->
  forall fuel, (List.length lines < fuel)%nat ->
    (In (byteZ key) plainKeys -> recognizedType (byteZ ty) = false ->
     NsLoggerParse timeString fuel b separator
     = Some (Fatal errUnknownPartType)) /\
    (byteZ key = PartKeyTimestampS ->
     ~ In (byteZ ty) [PartTypeInt32; PartTypeInt64; PartTypeString] ->
     NsLoggerParse timeString fuel b separator
     = Some (Fatal errDateNotParsed)) /\
    (forall res e,
        NsLoggerParse timeString fuel b separator = Some (Ret (res, Some e)) ->
        e = errUnknownPartKey).
Proof.
  intros Hr Hk Ht fuel Hf. repeat split.
  - intros Hin Hrec. apply (run_complete _ _ _ _ _ _ Hr); [|assumption].
    simpl. now rewrite (decodePart_type_fatal timeString b n m key ty Hk Ht).
  - intros Ek Hn. apply (run_complete _ _ _ _ _ _ Hr); [|assumption].
    simpl. now rewrite (decodePart_date_fatal timeString b n m key ty Hk Ht).
  - intros res e Hrun. now destruct (returned_error _ _ _ _ _ _ Hrun).
Qed.

(** C9, as amended: a buffer with less than four bytes of capacity makes
    [NsLoggerParse] panic on its first slice expression; with four bytes or
    more of capacity the first [totalSize] is read, and when it is not less
    than the buffer length (as a [uint32]) the function returns the empty
    text and no error. *)
Theorem short_buffer_outcome
    (timeString : Z -> string) (b : slice) (separator : string) (fuel : nat) :
  (cap b < 4 ->
   NsLoggerParse timeString fuel b separator
   = Some (Panic SliceBoundsOutOfRange)) /\
  (4 <= cap b -> exists totalSize, readUint32 b 0 = Ret totalSize) /\
  (forall totalSize,
      readUint32 b 0 = Ret totalSize -> fileSize b <= totalSize ->
      NsLoggerParse timeString (S fuel) b separator = Some (Ret ("", None))).
Proof.
  repeat split.
  - intro Hc. unfold NsLoggerParse. now rewrite readUint32_first_panics.
  - apply readUint32_first.
  - intros T HT Hge. unfold NsLoggerParse. rewrite HT. cbn [walk].
    change (0 + T) with T.
    rewrite (u32_small T) by (apply readUint32_range in HT; lia).
    apply Z.ltb_ge in Hge. now rewrite Hge.
Qed.

(** ** Reading a buffer laid out as a list *)

Lemma index_layout (l1 : list byte) (x : byte) (l2 sp : list byte) :
  index (mkSlice (l1 ++ x :: l2) sp) (Z.of_nat (List.length l1)) = Ret x.
Proof.
  unfold index, len. cbn [elems]. rewrite length_app. cbn [List.length].
  replace (0 <=? Z.of_nat (List.length l1)) with true
    by (symmetry; apply Z.leb_le; lia).
  replace (Z.of_nat (List.length l1) <?
           Z.of_nat (List.length l1 + S (List.length l2))) with true
    by (symmetry; apply Z.ltb_lt; lia).
  cbn [andb]. rewrite Nat2Z.id.
  rewrite nth_error_app2 by lia. now rewrite Nat.sub_diag.
Qed.

Lemma subslice_layout (l1 mid l2 sp : list byte) :
  subslice (mkSlice (l1 ++ mid ++ l2) sp) (Z.of_nat (List.length l1))
           (Z.of_nat (List.length l1) + Z.of_nat (List.length mid))
  = Ret mid.
Proof.
  unfold subslice, cap. cbn [elems spare]. rewrite !length_app.
  replace (0 <=? Z.of_nat (List.length l1)) with true
    by (symmetry; apply Z.leb_le; lia).
  replace (Z.of_nat (List.length l1) <=?
           Z.of_nat (List.length l1) + Z.of_nat (List.length mid)) with true
    by (symmetry; apply Z.leb_le; lia).
  replace (Z.of_nat (List.length l1) + Z.of_nat (List.length mid) <=?
           Z.of_nat (List.length l1 + (List.length mid + List.length l2)
                     + List.length sp)) with true
    by (symmetry; apply Z.leb_le; lia).
  cbn [andb]. f_equal.
  replace (Z.of_nat (List.length l1) + Z.of_nat (List.length mid)
           - Z.of_nat (List.length l1)) with (Z.of_nat (List.length mid))
    by lia.
  rewrite !Nat2Z.id. rewrite <- !app_assoc.
  rewrite skipn_app, skipn_all, Nat.sub_diag. cbn [skipn List.app].
  rewrite firstn_app, firstn_all, Nat.sub_diag. cbn [firstn].
  apply app_nil_r.
Qed.

(** C6: a part of type String whose length field holds the length n of the
    bytes of the string [s] that follow it is decoded by [appendValue] into
    a call of [addString] with [s] itself, and the size returned is 4 + n;
    for a key whose case is empty the turn of the inner loop moves the
    cursor by 2 + 4 + n.  This holds for every string, the empty one
    too; the part must lie below 2^32, the range of the cursor. *)
Theorem string_part_round_trip
    (timeString : Z -> string) (pre post sp : list byte) (key : byte)
    (s : string) :
  let d := list_byte_of_string s in
  let size := Z.of_nat (List.length d) in
  let n := Z.of_nat (List.length pre) in
  let b := mkSlice (pre ++ [key; byteOfZ PartTypeString]
                        ++ BigEndian.PutUint32 size ++ d ++ post) sp in
  n + 6 + size < 2 ^ 32 ->
  (forall (M : Type) (L : logMessage M) (m : M),
      appendValue b n m = Ret (4 + size, addString m s)) /\
  (In (byteZ key) plainKeys ->
   forall m : logMessageString,
     decodePart timeString b n m
     = Ret (Some (n + 2 + (4 + size), addString m s))).
Proof.
  intros d size n b Hn.
  assert (Hkey : index b n = Ret key) by apply index_layout.
  assert (Hty : index b (u32 (n + 1)) = Ret (byteOfZ PartTypeString)).
  { rewrite u32_small by lia. unfold b, n.
    replace (Z.of_nat (List.length pre) + 1)
      with (Z.of_nat (List.length (pre ++ [key])))
      by (rewrite length_app; simpl; lia).
    etransitivity; [|apply (index_layout (pre ++ [key])
                        (byteOfZ PartTypeString)
                        (BigEndian.PutUint32 size ++ d ++ post) sp)].
    now rewrite <- app_assoc. }
  assert (Hlen : lengthField b n = Ret size).
  { unfold lengthField. rewrite !u32_small by lia. unfold b, n.
    replace (Z.of_nat (List.length pre) + 2)
      with (Z.of_nat (List.length (pre ++ [key; byteOfZ PartTypeString])))
      by (rewrite length_app; simpl; lia).
    replace (Z.of_nat (List.length pre) + 6)
      with (Z.of_nat (List.length (pre ++ [key; byteOfZ PartTypeString]))
            + Z.of_nat (List.length (BigEndian.PutUint32 size)))
      by (rewrite length_app; simpl; lia).
    rewrite (app_assoc pre). rewrite subslice_layout. cbn [bind].
    apply Uint32_PutUint32. lia. }
  assert (Hd : subslice b (u32 (n + 6)) (u32 (n + 6 + size)) = Ret d).
  { rewrite !u32_small by lia. unfold b, n.
    replace (Z.of_nat (List.length pre) + 6)
      with (Z.of_nat (List.length
              ((pre ++ [key; byteOfZ PartTypeString])
               ++ BigEndian.PutUint32 size)))
      by (rewrite !length_app; simpl; lia).
    rewrite (app_assoc pre), (app_assoc (pre ++ _)).
    apply subslice_layout. }
  assert (Ha : forall (M : Type) (L : logMessage M) (m : M),
             appendValue b n m = Ret (4 + size, addString m s)).
  { intros M L m. unfold appendValue. rewrite Hty. cbn [bind].
    change (byteZ (byteOfZ PartTypeString)) with 0.
    change (0 =? PartTypeInt16) with false.
    change (0 =? PartTypeInt32) with false.
    change (0 =? PartTypeInt64) with false.
    change (0 =? PartTypeString) with true. cbv iota.
    rewrite Hlen. cbn [bind]. rewrite Hd. cbn [bind].
    rewrite u32_small by lia. unfold d.
    rewrite string_of_list_byte_of_string. f_equal. f_equal. lia. }
  split; [exact Ha|].
  intros Hin m.
  rewrite (decodePart_plain timeString b n m key Hkey Hin).
  rewrite Ha. cbn [bind].
  assert (0 <= size) by (unfold size; lia). assert (0 <= n) by (unfold n; lia).
  rewrite (u32_small (2 + _)) by lia. rewrite u32_small by lia.
  now rewrite Z.add_assoc.
Qed.

(** ** The timestamp *)

Lemma ReadFull_enough (k : nat) (l : list byte) :
  (k <= List.length l)%nat -> ReadFull k l = inr (firstn k l).
Proof.
  intro H. unfold ReadFull. apply Nat.leb_le in H. now rewrite H.
Qed.

Lemma ReadInt32_value (bs : list byte) (v : Z) :
  BigEndian.Uint32 bs = Ret v -> ReadInt32 bs = Ret (None, signed 32 v).
Proof.
  destruct bs as [|b0 [|b1 [|b2 [|b3 l]]]]; try discriminate.
  intro Hv. unfold ReadInt32, Read.
  rewrite ReadFull_enough by (simpl; lia). cbn [firstn].
  rewrite Uint32_value in Hv |- *. injection Hv as <-. reflexivity.
Qed.

(** A TimestampS part of type Int32: the text is the decimal number. *)
Lemma readDate_int32 timeString b n ty bs v :
  index b (u32 (n + 1)) = Ret ty ->
  byteZ ty = PartTypeInt32 ->
  subslice b (u32 (n + 2)) (u32 (n + 2 + 4)) = Ret bs ->
  BigEndian.Uint32 bs = Ret v ->
  readDate timeString b n = Ret (4, fmt.decimal (signed 32 v)).
Proof.
  intros Ht E Hbs Hv. unfold readDate. rewrite Ht. cbn [bind]. rewrite E.
  change (PartTypeInt32 =? PartTypeInt32) with true. cbv iota.
  rewrite Hbs. cbn [bind]. rewrite (ReadInt32_value _ _ Hv). reflexivity.
Qed.

(** A TimestampS part of type Int64: the text is the date and time. *)
Lemma readDate_int64 timeString b n ty bs v :
  index b (u32 (n + 1)) = Ret ty ->
  byteZ ty = PartTypeInt64 ->
  subslice b (u32 (n + 2)) (u32 (n + 2 + 8)) = Ret bs ->
  ReadInt64 bs = Ret (None, v) ->
  readDate timeString b n = Ret (8, timeString v).
Proof.
  intros Ht E Hbs Hv. unfold readDate. rewrite Ht. cbn [bind]. rewrite E.
  change (PartTypeInt64 =? PartTypeInt32) with false.
  change (PartTypeInt64 =? PartTypeInt64) with true. cbv iota.
  rewrite Hbs. cbn [bind]. rewrite Hv. reflexivity.
Qed.

(** A TimestampS part of type String: the text is the payload. *)
Lemma readDate_string timeString b n ty size data :
  index b (u32 (n + 1)) = Ret ty ->
  byteZ ty = PartTypeString ->
  lengthField b n = Ret size ->
  subslice b (u32 (n + 6)) (u32 (n + 6 + size)) = Ret data ->
  readDate timeString b n = Ret (u32 (size + 4), string_of_list_byte data).
Proof.
  intros Ht E Hl Hd. unfold readDate. rewrite Ht. cbn [bind]. rewrite E.
  change (PartTypeString =? PartTypeInt32) with false.
  change (PartTypeString =? PartTypeInt64) with false.
  change (PartTypeString =? PartTypeString) with true. cbv iota.
  rewrite Hl. cbn [bind]. rewrite Hd. reflexivity.
Qed.

(** C2: at a TimestampS part of type Int32 that holds 1700000000,
    [readDate] returns the size 4 and the text "1700000000", the decimal
    number and not a date, whatever the zone of the host; the same seconds
    in a part of type Int64 give the date and time. *)
Theorem timestamp_int32_is_not_a_date (timeString : Z -> string) :
  readDate timeString Examples.dateInt32 0 = Ret (4, "1700000000") /\
  readDate timeString Examples.dateInt64 0 = Ret (8, timeString 1700000000).
Proof. split; reflexivity. Qed.

(** ** The record accumulator *)

Lemma rest_noPercent (s : string) : noPercent s = true -> Sprintf.rest s = s.
Proof.
  induction s as [|c s IH]; [reflexivity|].
  cbn [noPercent Sprintf.rest]. intro H.
  apply andb_true_iff in H as [Hc Hs]. apply negb_true_iff in Hc.
  rewrite Hc. now rewrite IH.
Qed.

(** Without [%] in the separator a number is followed by the separator. *)
Lemma addInt_noPercent (t : logMessageString) (v : Z) :
  noPercent (separator t) = true ->
  value (addInt32 t v) = (value t ++ (fmt.decimal v ++ separator t))%string.
Proof.
  intro H. cbn. unfold Sprintf.v_then. now rewrite rest_noPercent.
Qed.

Lemma addInt_zero_noPercent (t : logMessageString) :
  noPercent (separator t) = true ->
  value (addInt32 t 0) = (value t ++ ("0" ++ separator t))%string.
Proof. apply addInt_noPercent. Qed.

(** C8: with the separator "%%", adding the number 0 to an empty record
    leaves "0%" in it: the separator is part of the format given to
    [fmt.Sprintf], which writes a single "%" for it, and the text is not
    the number followed by the separator; [addString] with the empty
    string changes nothing. *)
Theorem add_int_formats_the_separator :
  String' (addInt32 (mkLogMessageString "" "%%") 0) = "0%" /\
  String' (addInt16 (mkLogMessageString "" "%%") 0) = "0%" /\
  String' (addInt64 (mkLogMessageString "" "%%") 0) = "0%" /\
  String' (addInt32 (mkLogMessageString "" "%%") 0) <> ("0" ++ "%%")%string /\
  String' (addInt32 (mkLogMessageString "" "%") 0) = "0%!(NOVERB)" /\
  String' (addString (mkLogMessageString "" "%%") "") = "" /\
  String' (addString (mkLogMessageString "" "%%") "a") = "a%%".
Proof. repeat split. discriminate. Qed.

(** ** The claims on concrete buffers *)

Section Concrete.

Import Examples.

(** The decoder comes to the part with key 100 of [thenBadKey] after the
    line of its first message. *)
Lemma reach_thenBadKey :
  Reach utcString thenBadKey "," ["hi,"] (AtPart 1 20 m0).
Proof.
  pose proof (Reach_start utcString thenBadKey ",") as H0.
  pose proof (Reach_first _ _ _ 10 H0 eq_refl) as H1.
  pose proof (Reach_message _ _ _ _ _ _ 1 H1 eq_refl eq_refl) as H2.
  pose proof (Reach_part _ _ _ _ _ _ _ 14 (mkLogMessageString "hi," ",")
                H2 eq_refl) as H3.
  pose proof (Reach_line _ _ _ _ _ _ 4 H3 eq_refl) as H4.
  exact (Reach_message _ _ _ _ _ _ 1 H4 eq_refl eq_refl).
Qed.

Lemma reach_badType : Reach utcString badType "," [] (AtPart 1 6 m0).
Proof.
  pose proof (Reach_start utcString badType ",") as H0.
  pose proof (Reach_first _ _ _ 8 H0 eq_refl) as H1.
  exact (Reach_message _ _ _ _ _ _ 1 H1 eq_refl eq_refl).
Qed.

(** The MessageSeq part of the first message does not put the second one
    out of step. *)
Example twoMessages_lines :
  NsLoggerParse utcString 3 twoMessages ","
  = Some (Ret (joinLines ["a,"; "b,"], None)).
Proof. reflexivity. Qed.

(** The outer loop need not end: the cursor of [backToStart] comes back
    to the start of the buffer. *)
Lemma backToStart_walk (timeString : Z -> string) (fuel : nat) :
  forall res, walk timeString fuel backToStart "," 0 8 res = None.
Proof.
  induction fuel as [|fuel IH]; intro res; [reflexivity|].
  cbn [walk].
  change (u32 (0 + 8) <? fileSize backToStart) with true. cbv iota.
  change (decodeMessage timeString backToStart "," 0)
    with (Ret (Next 0 8 "")).
  apply IH.
Qed.

Example backToStart_diverges (timeString : Z -> string) (fuel : nat) :
  NsLoggerParse timeString fuel backToStart "," = None.
Proof. apply (backToStart_walk timeString fuel ""). Qed.

(** The empty string as a part of type String. *)
Example empty_string_round_trip :
  decodePart utcString (bytes [x07; x00; x00; x00; x00; x00]) 0 m0
  = Ret (Some (6, m0)).
Proof. reflexivity. Qed.

(** *** Witnesses *)

Lemma unknown_part_key_aborts_witness :
  Reach utcString thenBadKey "," ["hi,"] (AtPart 1 20 m0) /\
  index thenBadKey 20 = Ret x64 /\
  NsLoggerParse utcString 2 thenBadKey ","
  = Some (Ret (joinLines ["hi,"], Some errUnknownPartKey)).
Proof.
  split; [exact reach_thenBadKey|]. split; [reflexivity|].
  apply (unknown_part_key_aborts utcString thenBadKey "," ["hi,"] 0 20 m0
           x64 reach_thenBadKey eq_refl).
  - right. unfold PartKeyUserDefined. vm_compute. discriminate.
  - simpl. lia.
Defined.



Lemma message_seq_is_skipped_witness :
  index seqInt32 0 = Ret x0a /\
  index seqInt32 (u32 (0 + 1)) = Ret x03 /\
  decodePart utcString seqInt32 0 m0 = Ret (Some (6, m0)).
Proof.
  split; [reflexivity|]. split; [reflexivity|].
  exact (proj1 (message_seq_is_skipped utcString seqInt32 0 m0 x0a x03
                  eq_refl eq_refl eq_refl) eq_refl).
Defined.


Lemma type_errors_end_the_process_witness :
  Reach utcString badType "," [] (AtPart 1 6 m0) /\
  index badType 6 = Ret x07 /\
  index badType (u32 (6 + 1)) = Ret x09 /\
  NsLoggerParse utcString 1 badType "," = Some (Fatal errUnknownPartType).
Proof.
  split; [exact reach_badType|]. split; [reflexivity|].
  split; [reflexivity|].
  apply (proj1 (type_errors_end_the_process utcString badType "," [] 0 6
                  m0 x07 x09 reach_badType eq_refl eq_refl 1
                  (Nat.lt_0_succ 0))).
  - simpl. auto 10.
  - reflexivity.
Defined.

Lemma short_buffer_outcome_witness :
  readUint32 tooShort 0 = Ret 9 /\
  fileSize tooShort <= 9 /\
  NsLoggerParse utcString 1 tooShort "," = Some (Ret ("", None)).
Proof.
  split; [reflexivity|]. split; [vm_compute; discriminate|].
  apply (proj2 (proj2 (short_buffer_outcome utcString tooShort "," 0)) 9).
  - reflexivity.
  - vm_compute. discriminate.
Defined.

Lemma string_part_round_trip_witness :
  0 + 6 + 5 < 2 ^ 32 /\
  appendValue helloPart 0 m0 = Ret (4 + 5, addString m0 "hello") /\
  decodePart utcString helloPart 0 m0
  = Ret (Some (0 + 2 + (4 + 5), addString m0 "hello")).
Proof.
  split; [reflexivity|].
  pose proof (string_part_round_trip utcString [] [] [] x07 "hello" eq_refl)
    as [Ha Hd].
  split.
  - exact (Ha logMessageString _ m0).
  - apply Hd. simpl. auto 10.
Defined.

(** *** Counterexamples *)


(** C3, as stated, at a MessageSeq part of type Int16: the cursor is not
    moved by 2 + 2, the process ends. *)
Lemma message_seq_int16_is_fatal :
  recognizedType PartTypeInt16 = true /\
  decodePart utcString seqInt16 0 m0 = Fatal errSkipNotHandled /\
  decodePart utcString seqInt16 0 m0 <> Ret (Some (0 + 2 + 2, m0)).
Proof. repeat split. discriminate. Qed.

(** C4, as stated, at a part with the type byte 9 and at a TimestampS
    part of type Int16: no error is returned, the process ends. *)
Lemma type_errors_are_not_returned :
  NsLoggerParse utcString 1 badType "," = Some (Fatal errUnknownPartType) /\
  NsLoggerParse utcString 1 badDate "," = Some (Fatal errDateNotParsed) /\
  ~ (exists res e,
        NsLoggerParse utcString 1 badType "," = Some (Ret (res, Some e))) /\
  ~ (exists res e,
        NsLoggerParse utcString 1 badDate "," = Some (Ret (res, Some e))).
Proof.
  repeat split; intros (res & e & H); discriminate H.
Qed.

(** C9, as stated, at the empty buffer and at a buffer cut in the first
    part of its message: the run panics. *)
Lemma short_buffers_panic :
  NsLoggerParse utcString 1 (bytes []) ","
  = Some (Panic SliceBoundsOutOfRange) /\
  NsLoggerParse utcString 1 truncated ","
  = Some (Panic SliceBoundsOutOfRange) /\
  ~ (exists res e,
        NsLoggerParse utcString 1 (bytes []) "," = Some (Ret (res, e))).
Proof.
  repeat split. intros (res & e & H). discriminate H.
Qed.

End Concrete.

(** * Further properties *)

(** ** Integers on the wire *)

Lemma Uint64_value (b0 b1 b2 b3 b4 b5 b6 b7 : byte) (l : list byte) :
  BigEndian.Uint64 (b0 :: b1 :: b2 :: b3 :: b4 :: b5 :: b6 :: b7 :: l)
  = Ret (byteZ b7 + byteZ b6 * 2 ^ 8 + byteZ b5 * 2 ^ 16 + byteZ b4 * 2 ^ 24
         + byteZ b3 * 2 ^ 32 + byteZ b2 * 2 ^ 40 + byteZ b1 * 2 ^ 48
         + byteZ b0 * 2 ^ 56).
Proof.
  cbv beta iota delta [BigEndian.Uint64].
  pose proof (byteZ_range b0). pose proof (byteZ_range b1).
  pose proof (byteZ_range b2). pose proof (byteZ_range b3).
  pose proof (byteZ_range b4). pose proof (byteZ_range b5).
  pose proof (byteZ_range b6). pose proof (byteZ_range b7).
  rewrite (lor_shiftl_add (byteZ b7)) by lia.
  rewrite (lor_shiftl_add (byteZ b7 + _)) by lia.
  rewrite (lor_shiftl_add (byteZ b7 + _ + _)) by lia.
  rewrite (lor_shiftl_add (byteZ b7 + _ + _ + _)) by lia.
  rewrite (lor_shiftl_add (byteZ b7 + _ + _ + _ + _)) by lia.
  rewrite (lor_shiftl_add (byteZ b7 + _ + _ + _ + _ + _)) by lia.
  rewrite (lor_shiftl_add (byteZ b7 + _ + _ + _ + _ + _ + _)) by lia.
  reflexivity.
Qed.

Lemma Uint16_PutUint16 (v : Z) :
  0 <= v < 2 ^ 16 -> BigEndian.Uint16 (BigEndian.PutUint16 v) = Ret v.
Proof.
  intro Hv. unfold BigEndian.PutUint16. rewrite Uint16_value.
  rewrite !byteZ_byteOfZ. rewrite !Z.shiftr_div_pow2 by lia. f_equal.
  change (2 ^ 8) with 256. change (2 ^ 16) with 65536 in Hv.
  Z.div_mod_to_equations. lia.
Qed.

Lemma Uint64_PutUint64 (v : Z) :
  0 <= v < 2 ^ 64 -> BigEndian.Uint64 (BigEndian.PutUint64 v) = Ret v.
Proof.
  intro Hv. unfold BigEndian.PutUint64. rewrite Uint64_value.
  rewrite !byteZ_byteOfZ. rewrite !Z.shiftr_div_pow2 by lia. f_equal.
  change (2 ^ 8) with 256. change (2 ^ 16) with 65536.
  change (2 ^ 24) with 16777216. change (2 ^ 32) with 4294967296.
  change (2 ^ 40) with 1099511627776. change (2 ^ 48) with 281474976710656.
  change (2 ^ 56) with 72057594037927936.
  change (2 ^ 64) with 18446744073709551616 in Hv.
  Z.div_mod_to_equations. lia.
Qed.

(** Two's complement: the pattern of [v] read back as a signed integer. *)
Lemma signed_mod (w v : Z) :
  0 < w -> - 2 ^ (w - 1) <= v < 2 ^ (w - 1) -> signed w (v mod 2 ^ w) = v.
Proof.
  intros Hw Hv. unfold signed.
  assert (E : 2 ^ w = 2 * 2 ^ (w - 1)).
  { replace w with (Z.succ (w - 1)) at 1 by lia. apply Z.pow_succ_r. lia. }
  assert (0 < 2 ^ (w - 1)) by (apply Z.pow_pos_nonneg; lia).
  destruct (Z.lt_ge_cases v 0) as [Hneg|Hpos].
  - replace (v mod 2 ^ w) with (v + 2 ^ w).
    + destruct (Z.ltb_spec (v + 2 ^ w) (2 ^ (w - 1))); lia.
    + apply (Z.mod_unique_pos v (2 ^ w) (-1) (v + 2 ^ w)); lia.
  - rewrite Z.mod_small by lia.
    destruct (Z.ltb_spec v (2 ^ (w - 1))); lia.
Qed.

Lemma ReadInt16_PutUint16 (v : Z) :
  - 2 ^ 15 <= v < 2 ^ 15 ->
  ReadInt16 (BigEndian.PutUint16 (v mod 2 ^ 16)) = Ret (None, v).
Proof.
  intro Hv. unfold ReadInt16, Read. rewrite ReadFull_enough by (simpl; lia).
  change (firstn 2 (BigEndian.PutUint16 (v mod 2 ^ 16)))
    with (BigEndian.PutUint16 (v mod 2 ^ 16)).
  rewrite Uint16_PutUint16 by (apply Z.mod_pos_bound; lia). cbn [bind].
  change (8 * Z.of_nat 2) with 16. now rewrite signed_mod by lia.
Qed.

Lemma ReadInt32_PutUint32 (v : Z) :
  - 2 ^ 31 <= v < 2 ^ 31 ->
  ReadInt32 (BigEndian.PutUint32 (v mod 2 ^ 32)) = Ret (None, v).
Proof.
  intro Hv. unfold ReadInt32, Read. rewrite ReadFull_enough by (simpl; lia).
  change (firstn 4 (BigEndian.PutUint32 (v mod 2 ^ 32)))
    with (BigEndian.PutUint32 (v mod 2 ^ 32)).
  rewrite Uint32_PutUint32 by (apply Z.mod_pos_bound; lia). cbn [bind].
  change (8 * Z.of_nat 4) with 32. now rewrite signed_mod by lia.
Qed.

Lemma ReadInt64_PutUint64 (v : Z) :
  - 2 ^ 63 <= v < 2 ^ 63 ->
  ReadInt64 (BigEndian.PutUint64 (v mod 2 ^ 64)) = Ret (None, v).
Proof.
  intro Hv. unfold ReadInt64, Read. rewrite ReadFull_enough by (simpl; lia).
  change (firstn 8 (BigEndian.PutUint64 (v mod 2 ^ 64)))
    with (BigEndian.PutUint64 (v mod 2 ^ 64)).
  rewrite Uint64_PutUint64 by (apply Z.mod_pos_bound; lia). cbn [bind].
  change (8 * Z.of_nat 8) with 64. now rewrite signed_mod by lia.
Qed.

(** ** A part laid out in the buffer *)

Section PartLayout.

Variables pre rest sp : list byte.
Variables k t : byte.

Let n := Z.of_nat (List.length pre).

Lemma layout_key :
  index (mkSlice (pre ++ [k; t] ++ rest) sp) n = Ret k.
Proof. apply index_layout. Qed.

Lemma layout_type :
  index (mkSlice (pre ++ [k; t] ++ rest) sp) (n + 1) = Ret t.
Proof.
  unfold n.
  replace (Z.of_nat (List.length pre) + 1)
    with (Z.of_nat (List.length (pre ++ [k])))
    by (rewrite length_app; simpl; lia).
  etransitivity; [|apply (index_layout (pre ++ [k]) t rest sp)].
  now rewrite <- app_assoc.
Qed.

Lemma layout_data (x y : list byte) :
  rest = (x ++ y)%list ->
  subslice (mkSlice (pre ++ [k; t] ++ rest) sp) (n + 2)
           (n + 2 + Z.of_nat (List.length x)) = Ret x.
Proof.
  intros ->. unfold n.
  replace (Z.of_nat (List.length pre) + 2)
    with (Z.of_nat (List.length (pre ++ [k; t])))
    by (rewrite length_app; simpl; lia).
  etransitivity; [|apply (subslice_layout (pre ++ [k; t]) x y sp)].
  now rewrite <- app_assoc.
Qed.

Lemma layout_data_after (x y z : list byte) :
  rest = (x ++ y ++ z)%list ->
  subslice (mkSlice (pre ++ [k; t] ++ rest) sp)
           (n + 2 + Z.of_nat (List.length x))
           (n + 2 + Z.of_nat (List.length x) + Z.of_nat (List.length y))
  = Ret y.
Proof.
  intros ->. unfold n.
  replace (Z.of_nat (List.length pre) + 2 + Z.of_nat (List.length x))
    with (Z.of_nat (List.length ((pre ++ [k; t]) ++ x)))
    by (rewrite !length_app; simpl; lia).
  etransitivity; [|apply (subslice_layout ((pre ++ [k; t]) ++ x) y z sp)].
  now rewrite <- !app_assoc.
Qed.

End PartLayout.

Lemma byteZ_byteOfZ_small (v : Z) : 0 <= v < 256 -> byteZ (byteOfZ v) = v.
Proof. intro H. rewrite byteZ_byteOfZ. apply Z.mod_small. lia. Qed.

Lemma plainKeys_range (key : Z) : In key plainKeys -> 0 <= key < 256.
Proof.
  unfold plainKeys. simpl.
  intros H; repeat (destruct H as [<-|H]; [cbv; split; congruence|]);
    contradiction.
Qed.

Lemma length_PutUint32 (v : Z) : List.length (BigEndian.PutUint32 v) = 4%nat.
Proof. reflexivity. Qed.

Lemma length_encodePart (p : part) :
  List.length (encodePart p)
  = (2 + List.length (encodePayload (partPayload p)))%nat.
Proof. reflexivity. Qed.

(** [appendValue] on the bytes of a part: the size of the data and the
    [add...] call of the value. *)
Lemma appendValue_encoded (M : Type) (L : logMessage M) (m : M)
    (pre post sp : list byte) (k : byte) (p : payload) :
  let n := Z.of_nat (List.length pre) in
  let b := mkSlice (pre ++ [k; byteOfZ (typeOf p)]
                        ++ encodePayload p ++ post) sp in
  okPayload p ->
  n + 2 + Z.of_nat (List.length (encodePayload p)) < 2 ^ 32 ->
  appendValue b n m
  = Ret (Z.of_nat (List.length (encodePayload p)), addPayload m p).
Proof.
  intros n b Hok Hn.
  assert (Hn0 : 0 <= n) by (unfold n; lia).
  assert (Hty : index b (u32 (n + 1)) = Ret (byteOfZ (typeOf p))).
  { rewrite u32_small by lia. apply layout_type. }
  unfold appendValue. rewrite Hty. cbn [bind].
  destruct p as [v|v|v|s|d|d]; cbn [okPayload] in Hok;
    cbn [typeOf encodePayload addPayload] in *.
  - assert (Hd : subslice b (u32 (2 + n)) (u32 (2 + n + 2))
                 = Ret (BigEndian.PutUint16 (v mod 2 ^ 16))).
    { rewrite (Z.add_comm 2 n).
      rewrite !u32_small by (cbn [List.length BigEndian.PutUint16] in Hn; lia).
      exact (layout_data pre _ sp k _ _ post eq_refl). }
    change (byteZ (byteOfZ PartTypeInt16)) with 2.
    change (2 =? PartTypeInt16) with true. cbv beta iota zeta.
    rewrite Hd. cbn [bind].
    rewrite ReadInt16_PutUint16 by assumption. reflexivity.
  - assert (Hd : subslice b (u32 (n + 2)) (u32 (n + 2 + 4))
                 = Ret (BigEndian.PutUint32 (v mod 2 ^ 32))).
    { rewrite !u32_small by (cbn [List.length BigEndian.PutUint32] in Hn; lia).
      exact (layout_data pre _ sp k _ _ post eq_refl). }
    change (byteZ (byteOfZ PartTypeInt32)) with 3.
    change (3 =? PartTypeInt16) with false.
    change (3 =? PartTypeInt32) with true. cbv beta iota zeta.
    rewrite Hd. cbn [bind].
    rewrite ReadInt32_PutUint32 by assumption. reflexivity.
  - assert (Hd : subslice b (u32 (n + 2)) (u32 (n + 2 + 8))
                 = Ret (BigEndian.PutUint64 (v mod 2 ^ 64))).
    { rewrite !u32_small by (cbn [List.length BigEndian.PutUint64] in Hn; lia).
      exact (layout_data pre _ sp k _ _ post eq_refl). }
    change (byteZ (byteOfZ PartTypeInt64)) with 4.
    change (4 =? PartTypeInt16) with false.
    change (4 =? PartTypeInt32) with false.
    change (4 =? PartTypeInt64) with true. cbv beta iota zeta.
    rewrite Hd. cbn [bind].
    rewrite ReadInt64_PutUint64 by assumption. reflexivity.
  - set (d := list_byte_of_string s) in *.
    rewrite length_app, length_PutUint32 in Hn |- *.
    assert (Hl : lengthField b n = Ret (Z.of_nat (List.length d))).
    { unfold lengthField. rewrite !u32_small by lia.
      replace (n + 6) with (n + 2 + 4) by lia.
      rewrite (layout_data pre _ sp k _
                 (BigEndian.PutUint32 (Z.of_nat (List.length d)))
                 (d ++ post) eq_refl : subslice b (n + 2) (n + 2 + 4) = _).
      cbn [bind]. apply Uint32_PutUint32. lia. }
    assert (Hd : subslice b (u32 (n + 6))
                   (u32 (n + 6 + Z.of_nat (List.length d))) = Ret d).
    { rewrite !u32_small by lia.
      replace (n + 6) with (n + 2 + 4) by lia.
      exact (layout_data_after pre _ sp k _
               (BigEndian.PutUint32 (Z.of_nat (List.length d))) d post
               eq_refl). }
    change (byteZ (byteOfZ PartTypeString)) with 0.
    change (0 =? PartTypeInt16) with false.
    change (0 =? PartTypeInt32) with false.
    change (0 =? PartTypeInt64) with false.
    change (0 =? PartTypeString) with true. cbv beta iota zeta.
    rewrite Hl. cbn [bind]. rewrite Hd. cbn [bind].
    rewrite u32_small by lia.
    unfold d. rewrite string_of_list_byte_of_string.
    do 2 f_equal. lia.
  - rewrite length_app, length_PutUint32 in Hn |- *.
    assert (Hl : lengthField b n = Ret (Z.of_nat (List.length d))).
    { unfold lengthField. rewrite !u32_small by lia.
      replace (n + 6) with (n + 2 + 4) by lia.
      rewrite (layout_data pre _ sp k _
                 (BigEndian.PutUint32 (Z.of_nat (List.length d)))
                 (d ++ post) eq_refl : subslice b (n + 2) (n + 2 + 4) = _).
      cbn [bind]. apply Uint32_PutUint32. lia. }
    change (byteZ (byteOfZ PartTypeBinary)) with 1.
    change (1 =? PartTypeInt16) with false.
    change (1 =? PartTypeInt32) with false.
    change (1 =? PartTypeInt64) with false.
    change (1 =? PartTypeString) with false.
    change (1 =? PartTypeBinary) with true. cbv beta iota zeta.
    rewrite Hl. cbn [bind].
    rewrite u32_small by lia. do 2 f_equal. lia.
  - rewrite length_app, length_PutUint32 in Hn |- *.
    assert (Hl : lengthField b n = Ret (Z.of_nat (List.length d))).
    { unfold lengthField. rewrite !u32_small by lia.
      replace (n + 6) with (n + 2 + 4) by lia.
      rewrite (layout_data pre _ sp k _
                 (BigEndian.PutUint32 (Z.of_nat (List.length d)))
                 (d ++ post) eq_refl : subslice b (n + 2) (n + 2 + 4) = _).
      cbn [bind]. apply Uint32_PutUint32. lia. }
    change (byteZ (byteOfZ PartTypeImage)) with 5.
    change (5 =? PartTypeInt16) with false.
    change (5 =? PartTypeInt32) with false.
    change (5 =? PartTypeInt64) with false.
    change (5 =? PartTypeString) with false.
    change (5 =? PartTypeBinary) with false.
    change (5 =? PartTypeImage) with true. cbv beta iota zeta.
    rewrite Hl. cbn [bind].
    rewrite u32_small by lia. do 2 f_equal. lia.
Qed.

(** The text [readDate] gives for the value of a TimestampS part. *)
Lemma readDate_encoded (timeString : Z -> string)
    (pre post sp : list byte) (k : byte) (p : payload) :
  let n := Z.of_nat (List.length pre) in
  let b := mkSlice (pre ++ [k; byteOfZ (typeOf p)]
                        ++ encodePayload p ++ post) sp in
  okPayload p -> dateOrSeqPayload p ->
  n + 2 + Z.of_nat (List.length (encodePayload p)) < 2 ^ 32 ->
  readDate timeString b n
  = Ret (Z.of_nat (List.length (encodePayload p)),
         match p with
         | PInt32 v => fmt.decimal v
         | PInt64 v => timeString v
         | PString s => s
         | _ => ""
         end).
Proof.
  intros n b Hok Hds Hn.
  assert (Hn0 : 0 <= n) by (unfold n; lia).
  assert (Hty : index b (u32 (n + 1)) = Ret (byteOfZ (typeOf p))).
  { rewrite u32_small by lia. apply layout_type. }
  unfold readDate. rewrite Hty. cbn [bind].
  destruct p as [v|v|v|s|d|d]; try contradiction; cbn [okPayload] in Hok;
    cbn [typeOf encodePayload] in *.
  - assert (Hd : subslice b (u32 (n + 2)) (u32 (n + 2 + 4))
                 = Ret (BigEndian.PutUint32 (v mod 2 ^ 32))).
    { rewrite !u32_small by (cbn [List.length BigEndian.PutUint32] in Hn; lia).
      exact (layout_data pre _ sp k _ _ post eq_refl). }
    change (byteZ (byteOfZ PartTypeInt32)) with 3.
    change (3 =? PartTypeInt32) with true. cbv beta iota zeta.
    rewrite Hd. cbn [bind].
    rewrite ReadInt32_PutUint32 by assumption. reflexivity.
  - assert (Hd : subslice b (u32 (n + 2)) (u32 (n + 2 + 8))
                 = Ret (BigEndian.PutUint64 (v mod 2 ^ 64))).
    { rewrite !u32_small by (cbn [List.length BigEndian.PutUint64] in Hn; lia).
      exact (layout_data pre _ sp k _ _ post eq_refl). }
    change (byteZ (byteOfZ PartTypeInt64)) with 4.
    change (4 =? PartTypeInt32) with false.
    change (4 =? PartTypeInt64) with true. cbv beta iota zeta.
    rewrite Hd. cbn [bind].
    rewrite ReadInt64_PutUint64 by assumption. reflexivity.
  - set (d := list_byte_of_string s) in *.
    rewrite length_app, length_PutUint32 in Hn |- *.
    assert (Hl : lengthField b n = Ret (Z.of_nat (List.length d))).
    { unfold lengthField. rewrite !u32_small by lia.
      replace (n + 6) with (n + 2 + 4) by lia.
      rewrite (layout_data pre _ sp k _
                 (BigEndian.PutUint32 (Z.of_nat (List.length d)))
                 (d ++ post) eq_refl : subslice b (n + 2) (n + 2 + 4) = _).
      cbn [bind]. apply Uint32_PutUint32. lia. }
    assert (Hd : subslice b (u32 (n + 6))
                   (u32 (n + 6 + Z.of_nat (List.length d))) = Ret d).
    { rewrite !u32_small by lia.
      replace (n + 6) with (n + 2 + 4) by lia.
      exact (layout_data_after pre _ sp k _
               (BigEndian.PutUint32 (Z.of_nat (List.length d))) d post
               eq_refl). }
    change (byteZ (byteOfZ PartTypeString)) with 0.
    change (0 =? PartTypeInt32) with false.
    change (0 =? PartTypeInt64) with false.
    change (0 =? PartTypeString) with true. cbv beta iota zeta.
    rewrite Hl. cbn [bind]. rewrite Hd. cbn [bind].
    rewrite u32_small by lia.
    unfold d. rewrite string_of_list_byte_of_string.
    do 2 f_equal. lia.
Qed.

Lemma skipPart_encoded (pre post sp : list byte) (k : byte) (p : payload) :
  let n := Z.of_nat (List.length pre) in
  let b := mkSlice (pre ++ [k; byteOfZ (typeOf p)]
                        ++ encodePayload p ++ post) sp in
  dateOrSeqPayload p ->
  n + 2 + Z.of_nat (List.length (encodePayload p)) < 2 ^ 32 ->
  skipPart b n = Ret (Z.of_nat (List.length (encodePayload p))).
Proof.
  intros n b Hds Hn.
  assert (Hn0 : 0 <= n) by (unfold n; lia).
  assert (Hty : index b (u32 (n + 1)) = Ret (byteOfZ (typeOf p))).
  { rewrite u32_small by lia. apply layout_type. }
  destruct p as [v|v|v|s|d|d]; try contradiction;
    cbn [typeOf encodePayload] in *.
  - now rewrite (skipPart_int32 b n _ Hty eq_refl).
  - now rewrite (skipPart_int64 b n _ Hty eq_refl).
  - set (d := list_byte_of_string s) in *.
    rewrite length_app, length_PutUint32 in Hn |- *.
    assert (Hl : lengthField b n = Ret (Z.of_nat (List.length d))).
    { unfold lengthField. rewrite !u32_small by lia.
      replace (n + 6) with (n + 2 + 4) by lia.
      rewrite (layout_data pre _ sp k _
                 (BigEndian.PutUint32 (Z.of_nat (List.length d)))
                 (d ++ post) eq_refl : subslice b (n + 2) (n + 2 + 4) = _).
      cbn [bind]. apply Uint32_PutUint32. lia. }
    rewrite (skipPart_string b n _ Hty _ eq_refl Hl).
    rewrite u32_small by lia. f_equal. lia.
Qed.

Lemma encodePayload_size (p : payload) :
  dateOrSeqPayload p -> (4 <= List.length (encodePayload p))%nat.
Proof.
  destruct p; try contradiction; intros _; cbn [encodePayload];
    try rewrite length_app; simpl; lia.
Qed.

(** One turn of the inner loop on the bytes of a part: the cursor moves
    to the end of the part and the record takes what the part renders. *)
Lemma decodePart_encoded (timeString : Z -> string)
    (pre post sp : list byte) (p : part) (m : logMessageString) :
  let n := Z.of_nat (List.length pre) in
  let b := mkSlice (pre ++ encodePart p ++ post) sp in
  okPart p ->
  n + Z.of_nat (List.length (encodePart p)) < 2 ^ 32 ->
  decodePart timeString b n m
  = Ret (Some (n + Z.of_nat (List.length (encodePart p)),
               renderPart timeString m p)).
Proof.
  intros n b [Hok Hkey] Hn. destruct p as [key pl].
  cbn [partKey partPayload] in *.
  rewrite length_encodePart in Hn |- *. cbn [partPayload] in Hn |- *.
  set (size := Z.of_nat (List.length (encodePayload pl))) in *.
  assert (Hsz : Z.of_nat (2 + List.length (encodePayload pl)) = 2 + size)
    by (unfold size; lia).
  rewrite Hsz in *.
  assert (Hn0 : 0 <= n) by (unfold n; lia).
  assert (Hs0 : 0 <= size) by (unfold size; lia).
  assert (Hb : b = mkSlice (pre ++ [byteOfZ key; byteOfZ (typeOf pl)]
                                ++ encodePayload pl ++ post) sp).
  { unfold b, encodePart. cbn [partKey partPayload].
    now rewrite <- (app_assoc [_; _]). }
  assert (Hk : index b n = Ret (byteOfZ key))
    by (rewrite Hb; apply layout_key).
  assert (Hcur : u32 (n + u32 (2 + size)) = n + (2 + size))
    by (rewrite (u32_small (2 + size)) by lia; apply u32_small; lia).
  destruct Hkey as [Hplain | [[-> | ->] Hds]].
  - rewrite (decodePart_plain timeString b n m _ Hk)
      by (rewrite byteZ_byteOfZ_small by (now apply plainKeys_range);
          assumption).
    rewrite Hb.
    rewrite (appendValue_encoded _ _ m pre post sp (byteOfZ key) pl Hok)
      by (fold n; fold size; lia).
    cbn [bind]. fold size. rewrite Hcur.
    unfold renderPart. cbn [partKey partPayload].
    destruct (plainKeys_not_special _ Hplain) as [-> ->]. reflexivity.
  - unfold decodePart. rewrite Hk. cbn [bind].
    change (byteZ (byteOfZ PartKeyTimestampS)) with PartKeyTimestampS.
    rewrite keySwitch_date. rewrite Hb.
    rewrite (readDate_encoded timeString pre post sp _ pl Hok Hds)
      by (fold n; fold size; lia).
    cbn [bind]. fold size. pose proof (encodePayload_size pl Hds).
    replace (size =? 0) with false
      by (symmetry; apply Z.eqb_neq; unfold size; lia).
    cbn [negb bind]. rewrite Hcur.
    unfold renderPart. cbn [partKey partPayload].
    change (PartKeyTimestampS =? PartKeyTimestampS) with true.
    destruct pl; try contradiction; reflexivity.
  - pose proof (encodePayload_size pl Hds).
    rewrite (decodePart_skipped timeString b n m _ Hk size eq_refl).
    + unfold renderPart. cbn [partKey partPayload].
      change (PartKeyMessageSeq =? PartKeyTimestampS) with false.
      change (PartKeyMessageSeq =? PartKeyMessageSeq) with true.
      rewrite u32_small by lia. do 3 f_equal. lia.
    + rewrite Hb. apply (skipPart_encoded pre post sp _ pl Hds).
      fold n. fold size. lia.
    + unfold size. lia.
Qed.

(** ** A message and a stream laid out in the buffer *)

Lemma subslice_concat (b : slice) (l1 mid l2 : list byte) :
  (elems b ++ spare b = l1 ++ mid ++ l2)%list ->
  subslice b (Z.of_nat (List.length l1))
           (Z.of_nat (List.length l1) + Z.of_nat (List.length mid))
  = Ret mid.
Proof.
  intro E. unfold subslice, cap. rewrite <- length_app, E, !length_app.
  replace (0 <=? Z.of_nat (List.length l1)) with true
    by (symmetry; apply Z.leb_le; lia).
  replace (Z.of_nat (List.length l1) <=?
           Z.of_nat (List.length l1) + Z.of_nat (List.length mid)) with true
    by (symmetry; apply Z.leb_le; lia).
  replace (Z.of_nat (List.length l1) + Z.of_nat (List.length mid) <=?
           Z.of_nat (List.length l1 + (List.length mid + List.length l2)))
    with true by (symmetry; apply Z.leb_le; lia).
  cbn [andb]. f_equal.
  replace (Z.of_nat (List.length l1) + Z.of_nat (List.length mid)
           - Z.of_nat (List.length l1)) with (Z.of_nat (List.length mid))
    by lia.
  rewrite !Nat2Z.id.
  rewrite skipn_app, skipn_all, Nat.sub_diag. cbn [skipn List.app].
  rewrite firstn_app, firstn_all, Nat.sub_diag. cbn [firstn].
  apply app_nil_r.
Qed.

Lemma readUint32_at (b : slice) (l1 l2 : list byte) (v : Z) :
  (elems b ++ spare b = l1 ++ BigEndian.PutUint32 v ++ l2)%list ->
  0 <= v < 2 ^ 32 ->
  Z.of_nat (List.length l1) + 4 < 2 ^ 32 ->
  readUint32 b (Z.of_nat (List.length l1)) = Ret v.
Proof.
  intros E Hv Hn. unfold readUint32. rewrite u32_small by lia.
  rewrite (subslice_concat b l1 (BigEndian.PutUint32 v) l2 E
           : subslice b _ (_ + 4) = _).
  cbn [bind]. now apply Uint32_PutUint32.
Qed.

Lemma readUint16_at (b : slice) (l1 l2 : list byte) (v : Z) :
  (elems b ++ spare b = l1 ++ BigEndian.PutUint16 v ++ l2)%list ->
  0 <= v < 2 ^ 16 ->
  Z.of_nat (List.length l1) + 2 < 2 ^ 32 ->
  readUint16 b (Z.of_nat (List.length l1)) = Ret v.
Proof.
  intros E Hv Hn. unfold readUint16. rewrite u32_small by lia.
  rewrite (subslice_concat b l1 (BigEndian.PutUint16 v) l2 E
           : subslice b _ (_ + 2) = _).
  cbn [bind]. now apply Uint16_PutUint16.
Qed.

(** The [totalSize] of a turn of the outer loop is the one in the buffer
    at its cursor. *)
Lemma reach_totalSize timeString b separator lines n T :
  Reach timeString b separator lines (AtMessage n T) ->
  readUint32 b n = Ret T.
Proof. intro H. inversion H; subst; assumption. Qed.

Lemma reach_parts timeString b separator lines k :
  forall n m n' m',
    decodeParts timeString k b n m = Ret (Some (n', m')) ->
    Reach timeString b separator lines (AtPart k n m) ->
    Reach timeString b separator lines (AtPart 0 n' m').
Proof.
  induction k as [|k IH]; intros n m n' m' Hd Hr.
  - cbn in Hd. injection Hd as <- <-. assumption.
  - cbn [decodeParts] in Hd.
    destruct (decodePart timeString b n m) as [[[n1 m1]|]| |] eqn:Hp;
      try discriminate.
    cbn [bind] in Hd. apply (IH _ _ _ _ Hd).
    eapply Reach_part; eassumption.
Qed.

Lemma length_encodeParts_cons (p : part) (ps : list part) :
  List.length (encodeParts (p :: ps))
  = (List.length (encodePart p) + List.length (encodeParts ps))%nat.
Proof. unfold encodeParts. cbn [map List.concat]. apply length_app. Qed.

(** The inner loop on the bytes of the parts of a message. *)
Lemma decodeParts_encoded (timeString : Z -> string) (ps : list part) :
  forall (pre post sp : list byte) (m : logMessageString),
    Forall okPart ps ->
    Z.of_nat (List.length pre) + Z.of_nat (List.length (encodeParts ps))
    < 2 ^ 32 ->
    decodeParts timeString (List.length ps)
                (mkSlice (pre ++ encodeParts ps ++ post) sp)
                (Z.of_nat (List.length pre)) m
    = Ret (Some (Z.of_nat (List.length pre)
                 + Z.of_nat (List.length (encodeParts ps)),
                 fold_left (renderPart timeString) ps m)).
Proof.
  induction ps as [|p ps IH]; intros pre post sp m Hok Hn.
  - cbn. do 3 f_equal. lia.
  - inversion Hok as [|? ? Hp Hps]; subst.
    rewrite length_encodeParts_cons in Hn |- *.
    cbn [List.length decodeParts fold_left].
    unfold encodeParts. cbn [map List.concat]. fold (encodeParts ps).
    rewrite <- (app_assoc (encodePart p)).
    rewrite (decodePart_encoded timeString pre (encodeParts ps ++ post) sp
               p m Hp) by lia.
    cbn [bind].
    replace (Z.of_nat (List.length pre) + Z.of_nat (List.length (encodePart p)))
      with (Z.of_nat (List.length (pre ++ encodePart p)))
      by (rewrite length_app; lia).
    rewrite (app_assoc pre).
    rewrite (IH (pre ++ encodePart p)%list post sp _ Hps)
      by (rewrite length_app; lia).
    do 3 f_equal. rewrite length_app. lia.
Qed.

Lemma length_encodeMessage (ps : list part) :
  List.length (encodeMessage ps) = (6 + List.length (encodeParts ps))%nat.
Proof. reflexivity. Qed.

(** A turn of the outer loop on the bytes of a message: the run comes to
    the end of the message with the record of its parts. *)
Lemma reach_message_encoded (timeString : Z -> string) (separator : string)
    (b : slice) (pre post : list byte) (ps : list part)
    (lines : list string) (T : Z) :
  elems b = (pre ++ encodeMessage ps ++ post)%list ->
  okMessage ps ->
  len b < 2 ^ 32 ->
  Reach timeString b separator lines
        (AtMessage (Z.of_nat (List.length pre)) T) ->
  Reach timeString b separator lines
        (AtPart 0 (Z.of_nat (List.length pre)
                   + Z.of_nat (List.length (encodeMessage ps)))
                (fold_left (renderPart timeString) ps
                           (mkLogMessageString "" separator))).
Proof.
  intros E [Hok Hcount] Hlen Hr.
  set (n := Z.of_nat (List.length pre)) in *.
  set (size := Z.of_nat (List.length (encodeParts ps))).
  assert (Hl : len b = n + 6 + size + Z.of_nat (List.length post)).
  { unfold len. rewrite E, !length_app, length_encodeMessage.
    unfold n, size. lia. }
  assert (Hs0 : 0 <= size) by (unfold size; lia).
  assert (Hn0 : 0 <= n) by (unfold n; lia).
  assert (HT : T = 2 + size).
  { apply reach_totalSize in Hr.
    assert (Hread : readUint32 b n = Ret (2 + size)).
    { apply (readUint32_at b pre
               (BigEndian.PutUint16 (Z.of_nat (List.length ps))
                ++ encodeParts ps ++ post ++ spare b) (2 + size)).
      - rewrite E. unfold encodeMessage. fold size.
        now rewrite <- !app_assoc.
      - lia.
      - fold n. lia. }
    rewrite Hread in Hr. now injection Hr as <-. }
  subst T.
  assert (Hlt : u32 (n + (2 + size)) < fileSize b).
  { unfold fileSize. rewrite !u32_small by lia. lia. }
  assert (Hpc : readUint16 b (u32 (n + 4)) = Ret (Z.of_nat (List.length ps))).
  { rewrite u32_small by lia.
    replace (n + 4)
      with (Z.of_nat (List.length (pre ++ BigEndian.PutUint32 (2 + size))))
      by (rewrite length_app, length_PutUint32; unfold n; lia).
    apply (readUint16_at b _ (encodeParts ps ++ post ++ spare b)).
    - rewrite E. unfold encodeMessage. fold size.
      now rewrite <- !app_assoc.
    - lia.
    - rewrite length_app, length_PutUint32. fold n. lia. }
  pose proof (Reach_message _ _ _ _ _ _ _ Hr Hlt Hpc) as Hr'.
  rewrite Nat2Z.id in Hr'.
  set (pre' := (pre ++ BigEndian.PutUint32 (2 + size)
                    ++ BigEndian.PutUint16 (Z.of_nat (List.length ps)))%list).
  assert (Hpre' : Z.of_nat (List.length pre') = n + 6).
  { unfold pre'. rewrite !length_app. cbn. unfold n. lia. }
  replace (u32 (u32 (n + 4) + 2)) with (Z.of_nat (List.length pre')) in Hr'
    by (rewrite Hpre', !u32_small by (rewrite ?u32_small; lia); lia).
  eapply reach_parts; [|exact Hr'].
  assert (Hb : b = mkSlice (pre' ++ encodeParts ps ++ post) (spare b)).
  { destruct b as [el sp']. cbn [elems spare] in *. rewrite E.
    unfold pre', encodeMessage. fold size. now rewrite <- !app_assoc. }
  rewrite Hb at 1.
  rewrite (decodeParts_encoded timeString ps pre' post (spare b) _ Hok)
    by (rewrite Hpre'; fold size; lia).
  do 3 f_equal. rewrite Hpre', length_encodeMessage. fold size. lia.
Qed.

Lemma length_encodeStream_cons (ps : list part) (msgs : list (list part)) :
  List.length (encodeStream (ps :: msgs))
  = (List.length (encodeMessage ps) + List.length (encodeStream msgs))%nat.
Proof. unfold encodeStream. cbn [map List.concat]. apply length_app. Qed.

(** The run on the bytes of a stream comes to the end of its last
    message, with one line for each message before it. *)
Lemma reach_stream_last (timeString : Z -> string) (separator : string)
    (b : slice) (msgs : list (list part)) :
  forall (pre : list byte) (lines : list string) (T : Z),
    msgs <> [] ->
    elems b = (pre ++ encodeStream msgs)%list ->
    Forall okMessage msgs ->
    len b < 2 ^ 32 ->
    Reach timeString b separator lines
          (AtMessage (Z.of_nat (List.length pre)) T) ->
    Reach timeString b separator
          (lines ++ map (renderMessage timeString separator)
                        (removelast msgs))%list
          (AtPart 0 (len b)
                  (fold_left (renderPart timeString) (last msgs [])
                             (mkLogMessageString "" separator))).
Proof.
  induction msgs as [|ps rest IH]; intros pre lines T Hne E Hok Hlen Hr;
    [contradiction|].
  inversion Hok as [|? ? Hps Hrest]; subst.
  assert (E' : elems b = (pre ++ encodeMessage ps ++ encodeStream rest)%list)
    by (rewrite E; reflexivity).
  pose proof (reach_message_encoded timeString separator b pre
                (encodeStream rest) ps lines T E' Hps Hlen Hr) as Hend.
  assert (Hl : len b = Z.of_nat (List.length pre)
                       + Z.of_nat (List.length (encodeMessage ps))
                       + Z.of_nat (List.length (encodeStream rest))).
  { unfold len. rewrite E', !length_app. lia. }
  destruct rest as [|ps2 rest2].
  - cbn [removelast last map]. rewrite app_nil_r.
    replace (len b) with (Z.of_nat (List.length pre)
                          + Z.of_nat (List.length (encodeMessage ps)))
      by (rewrite Hl; cbn; lia).
    exact Hend.
  - set (pre' := (pre ++ encodeMessage ps)%list).
    assert (Hpre' : Z.of_nat (List.length pre')
                    = Z.of_nat (List.length pre)
                      + Z.of_nat (List.length (encodeMessage ps)))
      by (unfold pre'; rewrite length_app; lia).
    rewrite <- Hpre' in Hend.
    rewrite length_encodeStream_cons, (length_encodeMessage ps2) in Hl.
    assert (Hread : readUint32 b (Z.of_nat (List.length pre'))
                    = Ret (2 + Z.of_nat (List.length (encodeParts ps2)))).
    { apply (readUint32_at b pre'
               (BigEndian.PutUint16 (Z.of_nat (List.length ps2))
                ++ encodeParts ps2 ++ encodeStream rest2 ++ spare b)).
      - rewrite E. unfold pre', encodeStream. cbn [map List.concat].
        unfold encodeMessage at 2. now rewrite <- !app_assoc.
      - lia.
      - lia. }
    pose proof (Reach_line _ _ _ _ _ _ _ Hend Hread) as Hnext.
    assert (E2 : elems b = (pre' ++ encodeStream (ps2 :: rest2))%list)
      by (rewrite E'; unfold pre'; now rewrite <- app_assoc).
    pose proof (IH pre' _ _ ltac:(discriminate) E2 Hrest Hlen Hnext) as Hfin.
    change (removelast (ps :: ps2 :: rest2))
      with (ps :: removelast (ps2 :: rest2)).
    change (last (ps :: ps2 :: rest2) []) with (last (ps2 :: rest2) []).
    cbn [map]. rewrite <- app_assoc in Hfin. exact Hfin.
Qed.

Lemma subslice_reversed (b : slice) (lo hi : Z) :
  hi < lo -> subslice b lo hi = Panic SliceBoundsOutOfRange.
Proof.
  intro H. unfold subslice.
  replace (lo <=? hi) with false by (symmetry; apply Z.leb_gt; lia).
  now rewrite andb_false_r.
Qed.

(** There is no [totalSize] to read where less than four bytes of
    capacity are left. *)
Lemma readUint32_past_capacity (b : slice) (n : Z) :
  0 <= n < 2 ^ 32 -> cap b < n + 4 ->
  readUint32 b n = Panic SliceBoundsOutOfRange.
Proof.
  intros Hn Hc. unfold readUint32.
  destruct (Z.lt_ge_cases (n + 4) (2 ^ 32)) as [Hs|Hw].
  - rewrite u32_small by lia. now rewrite subslice_out_of_range.
  - rewrite subslice_reversed; [reflexivity|].
    unfold u32.
    rewrite <- (Z.mod_unique_pos (n + 4) (2 ^ 32) 1 (n + 4 - 2 ^ 32)); lia.
Qed.

Lemma map_removelast_last timeString separator (msgs : list (list part)) :
  msgs <> [] ->
  (map (renderMessage timeString separator) (removelast msgs)
   ++ [renderMessage timeString separator (last msgs [])])%list
  = map (renderMessage timeString separator) msgs.
Proof.
  intro Hne. rewrite (app_removelast_last [] Hne) at 3.
  now rewrite map_app.
Qed.

Lemma readUint32_stream_head (b : slice) (ps : list part)
    (rest : list (list part)) :
  elems b = encodeStream (ps :: rest) ->
  len b < 2 ^ 32 ->
  readUint32 b 0 = Ret (2 + Z.of_nat (List.length (encodeParts ps))).
Proof.
  intros E Hlen.
  assert (Z.of_nat (List.length (encodeMessage ps)) <= len b).
  { unfold len. rewrite E, length_encodeStream_cons. lia. }
  rewrite length_encodeMessage in *.
  apply (readUint32_at b []
           (BigEndian.PutUint16 (Z.of_nat (List.length ps))
            ++ encodeParts ps ++ encodeStream rest ++ spare b)).
  - rewrite E. unfold encodeStream. cbn [map List.concat].
    unfold encodeMessage at 1. now rewrite <- !app_assoc.
  - lia.
  - cbn. lia.
Qed.

(** ** The decoder on a stream of messages *)

Lemma stream_decodes
    (timeString : Z -> string) (separator : string)
    (msgs : list (list part)) (sp : list byte) (T : Z) (fuel : nat) :
  let b := mkSlice (encodeStream msgs) (BigEndian.PutUint32 T ++ sp) in
  Forall okMessage msgs ->
  0 <= T ->
  len b + 4 + T < 2 ^ 32 ->
  (List.length msgs < fuel)%nat ->
  NsLoggerParse timeString fuel b separator
  = Some (Ret (joinLines (map (renderMessage timeString separator) msgs),
               None)).
Proof.
  intros b Hok HT Hlen Hfuel.
  assert (Hl0 : 0 <= len b) by (unfold len; lia).
  assert (Hend : readUint32 b (len b) = Ret T).
  { apply (readUint32_at b (encodeStream msgs) sp T); [reflexivity|lia|].
    change (len b + 4 < 2 ^ 32). lia. }
  assert (Hexit : (u32 (len b + T) <? fileSize b) = false).
  { unfold fileSize. rewrite !u32_small by lia. apply Z.ltb_ge. lia. }
  destruct msgs as [|ps rest].
  - apply (run_complete timeString b separator [] (AtMessage 0 T)).
    + apply Reach_first; [apply Reach_start | exact Hend].
    + cbn [halt]. change (len b) with 0 in Hexit. now rewrite Hexit.
    + exact Hfuel.
  - assert (Hne : ps :: rest <> []) by discriminate.
    pose proof (readUint32_stream_head b ps rest eq_refl ltac:(lia)) as HT0.
    pose proof (Reach_first timeString b separator _
                  (Reach_start _ _ _) HT0) as H0.
    pose proof (reach_stream_last timeString separator b (ps :: rest) [] []
                  _ Hne eq_refl Hok ltac:(lia) H0) as Hlast.
    pose proof (Reach_line _ _ _ _ _ _ _ Hlast Hend) as Hfin.
    cbn [List.app] in Hfin.
    change (String' (fold_left (renderPart timeString)
                               (last (ps :: rest) [])
                               (mkLogMessageString "" separator)))
      with (renderMessage timeString separator (last (ps :: rest) []))
      in Hfin.
    rewrite (map_removelast_last timeString separator _ Hne) in Hfin.
    apply (run_complete _ _ _ _ _ _ Hfin).
    + cbn [halt]. now rewrite Hexit.
    + now rewrite length_map.
Qed.

(** X2: on the same stream in a buffer with less than four bytes of spare
    capacity (a slice whose capacity is its length is one), the run
    panics: with no message on the first slice expression, and else on
    the read of the [totalSize] that would follow the last message, after
    all the messages have been decoded. *)
Theorem stream_without_spare_capacity_panics
    (timeString : Z -> string) (separator : string)
    (msgs : list (list part)) (sp : list byte) (fuel : nat) :
  let b := mkSlice (encodeStream msgs) sp in
  Forall okMessage msgs ->
  (List.length sp < 4)%nat ->
  len b < 2 ^ 32 ->
  (List.length msgs <= fuel)%nat ->
  NsLoggerParse timeString fuel b separator
  = Some (Panic SliceBoundsOutOfRange).
Proof.
  intros b Hok Hsp Hlen Hfuel.
  assert (Hl0 : 0 <= len b) by (unfold len; lia).
  assert (Hcap : cap b < len b + 4)
    by (unfold cap, len, b; cbn [elems spare]; lia).
  destruct msgs as [|ps rest].
  - unfold NsLoggerParse. rewrite readUint32_first_panics; [reflexivity|].
    change (len b) with 0 in Hcap. lia.
  - assert (Hne : ps :: rest <> []) by discriminate.
    pose proof (readUint32_stream_head b ps rest eq_refl Hlen) as HT0.
    pose proof (Reach_first timeString b separator _
                  (Reach_start _ _ _) HT0) as H0.
    pose proof (reach_stream_last timeString separator b (ps :: rest) [] []
                  _ Hne eq_refl Hok Hlen H0) as Hlast.
    apply (run_complete _ _ _ _ _ _ Hlast).
    + cbn [halt]. now rewrite readUint32_past_capacity by lia.
    + cbn [List.app]. rewrite length_map.
      assert (List.length (removelast (ps :: rest))
              < List.length (ps :: rest))%nat.
      { rewrite (app_removelast_last [] Hne) at 2.
        rewrite length_app. simpl. lia. }
      lia.
Qed.

(** ** Where the process can end *)

(** A slice expression [b[a : a+k]] that does not panic has [k] bytes. *)
Lemma subslice_exact (b : slice) (a k : Z) (bs : list byte) :
  0 <= k < 2 ^ 32 ->
  subslice b (u32 a) (u32 (a + k)) = Ret bs ->
  List.length bs = Z.to_nat k.
Proof.
  intros Hk Hs. pose proof (subslice_length _ _ _ _ Hs) as Hl.
  unfold subslice in Hs.
  destruct ((0 <=? u32 a) && (u32 a <=? u32 (a + k)) && (u32 (a + k) <=? cap b))
    eqn:E; [|discriminate].
  apply andb_true_iff in E as [E _]. apply andb_true_iff in E as [_ E].
  apply Z.leb_le in E. rewrite Hl. f_equal.
  unfold u32 in *. change (2 ^ 32) with 4294967296 in *.
  Z.div_mod_to_equations. lia.
Qed.

Lemma Read_full (k : nat) (decode : list byte -> outcome Z)
    (bs : list byte) :
  (k <= List.length bs)%nat ->
  (forall l, List.length l = k -> exists u, decode l = Ret u) ->
  exists v, Read k decode bs = Ret (None, v).
Proof.
  intros Hl Hdec. unfold Read. rewrite ReadFull_enough by assumption.
  destruct (Hdec (firstn k bs)) as [u Hu].
  - rewrite length_firstn. lia.
  - rewrite Hu. cbn [bind]. eauto.
Qed.

Lemma ReadInt16_full (bs : list byte) :
  List.length bs = 2%nat -> exists v, ReadInt16 bs = Ret (None, v).
Proof.
  intro Hl. apply Read_full; [lia|]. intros l Hl'.
  destruct l as [|b0 [|b1 [|]]]; try discriminate. cbn. eauto.
Qed.

Lemma ReadInt32_full (bs : list byte) :
  List.length bs = 4%nat -> exists v, ReadInt32 bs = Ret (None, v).
Proof.
  intro Hl. apply Read_full; [lia|]. intros l Hl'.
  destruct l as [|b0 [|b1 [|b2 [|b3 [|]]]]]; try discriminate. cbn. eauto.
Qed.

Lemma ReadInt64_full (bs : list byte) :
  List.length bs = 8%nat -> exists v, ReadInt64 bs = Ret (None, v).
Proof.
  intro Hl. apply Read_full; [lia|]. intros l Hl'.
  destruct l as [|b0 [|b1 [|b2 [|b3 [|b4 [|b5 [|b6 [|b7 [|]]]]]]]]];
    try discriminate.
  cbn. eauto.
Qed.

Lemma index_not_fatal (b : slice) (i : Z) (e : error) : index b i <> Fatal e.
Proof.
  unfold index. destruct ((0 <=? i) && (i <? len b)); [|discriminate].
  destruct (nth_error (elems b) (Z.to_nat i)); discriminate.
Qed.

Lemma subslice_not_fatal (b : slice) (lo hi : Z) (e : error) :
  subslice b lo hi <> Fatal e.
Proof.
  unfold subslice.
  destruct ((0 <=? lo) && (lo <=? hi) && (hi <=? cap b)); discriminate.
Qed.

Lemma Uint32_not_fatal (l : list byte) (e : error) :
  BigEndian.Uint32 l <> Fatal e.
Proof. destruct l as [|b0 [|b1 [|b2 [|b3 l]]]]; discriminate. Qed.

Lemma Uint16_not_fatal (l : list byte) (e : error) :
  BigEndian.Uint16 l <> Fatal e.
Proof. destruct l as [|b0 [|b1 l]]; discriminate. Qed.

Lemma lengthField_not_fatal (b : slice) (n : Z) (e : error) :
  lengthField b n <> Fatal e.
Proof.
  unfold lengthField.
  destruct (subslice b (u32 (n + 2)) (u32 (n + 6))) eqn:E; cbn [bind];
    try discriminate.
  - apply Uint32_not_fatal.
  - intro H. injection H as ->. now apply subslice_not_fatal in E.
Qed.

Lemma readUint32_not_fatal (b : slice) (n : Z) (e : error) :
  readUint32 b n <> Fatal e.
Proof.
  unfold readUint32.
  destruct (subslice b n (u32 (n + 4))) eqn:E; cbn [bind]; try discriminate.
  - apply Uint32_not_fatal.
  - intro H. injection H as ->. now apply subslice_not_fatal in E.
Qed.

Lemma readUint16_not_fatal (b : slice) (n : Z) (e : error) :
  readUint16 b n <> Fatal e.
Proof.
  unfold readUint16.
  destruct (subslice b n (u32 (n + 2))) eqn:E; cbn [bind]; try discriminate.
  - apply Uint16_not_fatal.
  - intro H. injection H as ->. now apply subslice_not_fatal in E.
Qed.

(** The integer cases of [appendValue] and [readDate]: the [check] after
    [binary.Read] never ends the process, the slice read has the bytes. *)
Lemma read_case_not_fatal (A : Type) (b : slice) (a : Z) (k : nat)
    (ReadInt : list byte -> outcome (option error * Z))
    (f : Z -> outcome A) (e : error) :
  0 < Z.of_nat k < 2 ^ 32 ->
  (forall bs, List.length bs = k -> exists v, ReadInt bs = Ret (None, v)) ->
  (forall v, f v <> Fatal e) ->
  (bs <- subslice b (u32 a) (u32 (a + Z.of_nat k)) ;;
   '(err, val) <- ReadInt bs ;;
   _ <- check err ;;
   f val) <> Fatal e.
Proof.
  intros Hk Hread Hf.
  destruct (subslice b (u32 a) (u32 (a + Z.of_nat k))) as [bs| |] eqn:E;
    cbn [bind]; try discriminate.
  - apply subslice_exact in E; [|lia]. rewrite Nat2Z.id in E.
    destruct (Hread bs E) as [v Hv]. rewrite Hv. cbn [bind check]. apply Hf.
  - intro H. injection H as ->. now apply subslice_not_fatal in E.
Qed.

Lemma appendValue_fatal (b : slice) (n : Z) (m : logMessageString)
    (e : error) :
  appendValue b n m = Fatal e ->
  e = errUnknownPartType /\
  exists ty, index b (u32 (n + 1)) = Ret ty /\
             recognizedType (byteZ ty) = false.
Proof.
  unfold appendValue.
  destruct (index b (u32 (n + 1))) as [ty| |] eqn:Hty; cbn [bind];
    try discriminate.
  2:{ intro H. injection H as ->. now apply index_not_fatal in Hty. }
  unfold recognizedType. cbn [existsb].
  destruct (byteZ ty =? PartTypeInt16) eqn:E16.
  { intro H. exfalso. revert H. rewrite (Z.add_comm 2 n).
    apply (read_case_not_fatal _ b (n + 2) 2 ReadInt16); try discriminate;
      [cbn; lia | apply ReadInt16_full]. }
  destruct (byteZ ty =? PartTypeInt32) eqn:E32.
  { intro H. exfalso. revert H.
    apply (read_case_not_fatal _ b (n + 2) 4 ReadInt32); try discriminate;
      [cbn; lia | apply ReadInt32_full]. }
  destruct (byteZ ty =? PartTypeInt64) eqn:E64.
  { intro H. exfalso. revert H.
    apply (read_case_not_fatal _ b (n + 2) 8 ReadInt64); try discriminate;
      [cbn; lia | apply ReadInt64_full]. }
  destruct (byteZ ty =? PartTypeString) eqn:Es.
  { destruct (lengthField b n) as [size| |] eqn:El; cbn [bind];
      try discriminate.
    - destruct (subslice b (u32 (n + 6)) (u32 (n + 6 + size))) eqn:Ed;
        cbn [bind]; try discriminate.
      intro H. injection H as ->. now apply subslice_not_fatal in Ed.
    - intro H. injection H as ->. now apply lengthField_not_fatal in El. }
  destruct (byteZ ty =? PartTypeBinary) eqn:Eb.
  { destruct (lengthField b n) as [size| |] eqn:El; cbn [bind];
      try discriminate.
    intro H. injection H as ->. now apply lengthField_not_fatal in El. }
  destruct (byteZ ty =? PartTypeImage) eqn:Ei.
  { destruct (lengthField b n) as [size| |] eqn:El; cbn [bind];
      try discriminate.
    intro H. injection H as ->. now apply lengthField_not_fatal in El. }
  cbn [check bind]. intro H. injection H as <-. split; [reflexivity|].
  exists ty. split; [reflexivity|]. now rewrite E16, E32, E64, Es, Eb, Ei.
Qed.

Lemma readDate_outcome (timeString : Z -> string) (b : slice) (n : Z) :
  match readDate timeString b n with
  | Ret _ =>
      exists ty, index b (u32 (n + 1)) = Ret ty /\
                 In (byteZ ty) [PartTypeInt32; PartTypeInt64; PartTypeString]
  | Fatal e =>
      e = errDateNotParsed /\
      exists ty, index b (u32 (n + 1)) = Ret ty /\
                 ~ In (byteZ ty) [PartTypeInt32; PartTypeInt64; PartTypeString]
  | Panic _ => True
  end.
Proof.
  unfold readDate.
  destruct (index b (u32 (n + 1))) as [ty| |] eqn:Hty; cbn [bind]; trivial.
  2:{ now apply index_not_fatal in Hty. }
  destruct (Z.eqb_spec (byteZ ty) PartTypeInt32) as [E32|N32].
  { destruct (subslice b (u32 (n + 2)) (u32 (n + 2 + 4))) as [bs| |] eqn:E;
      cbn [bind]; trivial.
    - apply (subslice_exact b (n + 2) 4) in E; [|lia].
      destruct (ReadInt32_full bs E) as [v ->]. cbn [bind check].
      exists ty. rewrite E32. simpl. auto.
    - now apply subslice_not_fatal in E. }
  destruct (Z.eqb_spec (byteZ ty) PartTypeInt64) as [E64|N64].
  { destruct (subslice b (u32 (n + 2)) (u32 (n + 2 + 8))) as [bs| |] eqn:E;
      cbn [bind]; trivial.
    - apply (subslice_exact b (n + 2) 8) in E; [|lia].
      destruct (ReadInt64_full bs E) as [v ->]. cbn [bind check].
      exists ty. rewrite E64. simpl. auto.
    - now apply subslice_not_fatal in E. }
  destruct (Z.eqb_spec (byteZ ty) PartTypeString) as [Es|Ns].
  { destruct (lengthField b n) as [size| |] eqn:El; cbn [bind]; trivial.
    - destruct (subslice b (u32 (n + 6)) (u32 (n + 6 + size))) eqn:Ed;
        cbn [bind]; trivial.
      + exists ty. rewrite Es. simpl. auto.
      + now apply subslice_not_fatal in Ed.
    - now apply lengthField_not_fatal in El. }
  cbn [check bind]. split; [reflexivity|]. exists ty. split; [reflexivity|].
  simpl. intuition congruence.
Qed.

Lemma skipPart_outcome (b : slice) (n : Z) :
  match skipPart b n with
  | Ret _ =>
      exists ty, index b (u32 (n + 1)) = Ret ty /\
                 In (byteZ ty) [PartTypeInt32; PartTypeInt64; PartTypeString]
  | Fatal e =>
      e = errSkipNotHandled /\
      exists ty, index b (u32 (n + 1)) = Ret ty /\
                 ~ In (byteZ ty) [PartTypeInt32; PartTypeInt64; PartTypeString]
  | Panic _ => True
  end.
Proof.
  unfold skipPart.
  destruct (index b (u32 (n + 1))) as [ty| |] eqn:Hty; cbn [bind]; trivial.
  2:{ now apply index_not_fatal in Hty. }
  destruct (Z.eqb_spec (byteZ ty) PartTypeInt32) as [E32|N32].
  { exists ty. rewrite E32. simpl. auto. }
  destruct (Z.eqb_spec (byteZ ty) PartTypeInt64) as [E64|N64].
  { exists ty. rewrite E64. simpl. auto. }
  destruct (Z.eqb_spec (byteZ ty) PartTypeString) as [Es|Ns].
  { destruct (lengthField b n) as [size| |] eqn:El; cbn [bind]; trivial.
    - exists ty. rewrite Es. simpl. auto.
    - now apply lengthField_not_fatal in El. }
  cbn [check bind]. split; [reflexivity|]. exists ty. split; [reflexivity|].
  simpl. intuition congruence.
Qed.

Lemma handled_type_recognized (t : Z) :
  In t [PartTypeInt32; PartTypeInt64; PartTypeString] ->
  recognizedType t = true.
Proof. simpl. intros [<-|[<-|[<-|[]]]]; reflexivity. Qed.

Lemma decodePart_fatal (timeString : Z -> string) (b : slice) (n : Z)
    (m : logMessageString) (e : error) :
  decodePart timeString b n m = Fatal e ->
  exists key ty,
    index b n = Ret key /\ index b (u32 (n + 1)) = Ret ty /\
    fatalAt (byteZ key) (byteZ ty) e.
Proof.
  unfold decodePart.
  destruct (index b n) as [key| |] eqn:Hk; cbn [bind]; try discriminate.
  2:{ intro H. injection H as ->. now apply index_not_fatal in Hk. }
  unfold keySwitch.
  destruct (Z.eqb_spec (byteZ key) PartKeyTimestampS) as [E1|N1].
  { pose proof (readDate_outcome timeString b n) as Hrd.
    destruct (readDate timeString b n) as [[u s]| |e']; cbn [bind];
      try discriminate.
    - destruct Hrd as (ty & Hty & Hin).
      destruct (negb (u =? 0)); cbn [bind]; [discriminate|].
      destruct (appendValue b n m) as [[u' m']| |e'] eqn:Ha; cbn [bind];
        try discriminate.
      intro H. injection H as ->.
      destruct (appendValue_fatal _ _ _ _ Ha) as (_ & ty' & Hty' & Hrec).
      rewrite Hty in Hty'. injection Hty' as <-.
      rewrite (handled_type_recognized _ Hin) in Hrec. discriminate.
    - destruct Hrd as (-> & ty & Hty & Hn). intro H. injection H as <-.
      exists key, ty. repeat split; try assumption.
      right. left. auto. }
  destruct (Z.eqb_spec (byteZ key) PartKeyMessageSeq) as [E10|N10].
  { pose proof (skipPart_outcome b n) as Hsk.
    destruct (skipPart b n) as [u| |e']; cbn [bind]; try discriminate.
    - destruct Hsk as (ty & Hty & Hin).
      destruct (negb (u =? 0)); cbn [bind]; [discriminate|].
      destruct (appendValue b n m) as [[u' m']| |e'] eqn:Ha; cbn [bind];
        try discriminate.
      intro H. injection H as ->.
      destruct (appendValue_fatal _ _ _ _ Ha) as (_ & ty' & Hty' & Hrec).
      rewrite Hty in Hty'. injection Hty' as <-.
      rewrite (handled_type_recognized _ Hin) in Hrec. discriminate.
    - destruct Hsk as (-> & ty & Hty & Hn). intro H. injection H as <-.
      exists key, ty. repeat split; try assumption.
      right. right. auto. }
  destruct (existsb (Z.eqb (byteZ key)) plainKeys) eqn:Hex; cbn [bind];
    [|discriminate].
  cbn [negb Z.eqb].
  destruct (appendValue b n m) as [[u' m']| |e'] eqn:Ha; cbn [bind];
    try discriminate.
  intro H. injection H as ->.
  destruct (appendValue_fatal _ _ _ _ Ha) as (-> & ty & Hty & Hrec).
  exists key, ty. repeat split; try assumption.
  left. repeat split; try assumption.
  apply existsb_exists in Hex as (x & Hin & Hx).
  apply Z.eqb_eq in Hx. now subst x.
Qed.

(** X3: the process ends through [log.Fatal] only at a part the run has
    come to whose type byte its key does not take: a key with an empty
    case and a type byte without a case in [appendValue], or a TimestampS
    or MessageSeq part whose type is not Int32, Int64 or String, each
    with its own message.  The [check] after [binary.Read] never ends the
    process. *)
Theorem fatal_only_at_unhandled_type
    (timeString : Z -> string) (b : slice) (separator : string)
    (fuel : nat) (e : error) :
  NsLoggerParse timeString fuel b separator = Some (Fatal e) ->
  exists lines partCount n m key ty,
    Reach timeString b separator lines (AtPart (S partCount) n m) /\
    index b n = Ret key /\ index b (u32 (n + 1)) = Ret ty /\
    fatalAt (byteZ key) (byteZ ty) e.
Proof.
  intro Hrun.
  destruct (run_sound _ _ _ _ _ Hrun) as (lines & c & Hr & Hh & _).
  destruct c as [ | n T | [|k] n m ]; cbn [halt] in Hh.
  - destruct (readUint32 b 0) eqn:E; try discriminate.
    injection Hh as ->. now apply readUint32_not_fatal in E.
  - destruct (u32 (n + T) <? fileSize b); [|discriminate].
    destruct (readUint16 b (u32 (n + 4))) eqn:E; try discriminate.
    injection Hh as ->. now apply readUint16_not_fatal in E.
  - destruct (readUint32 b n) eqn:E; try discriminate.
    injection Hh as ->. now apply readUint32_not_fatal in E.
  - destruct (decodePart timeString b n m) as [[[n' m']|]| |e'] eqn:Hp;
      try discriminate.
    injection Hh as ->.
    destruct (decodePart_fatal _ _ _ _ _ Hp) as (key & ty & Hk & Hty & Hf).
    exists lines, k, n, m, key, ty. auto.
Qed.

(** ** The keys with a case *)

Lemma recognizedKey_range (key : Z) :
  recognizedKey key = true <-> 0 <= key <= 13 \/ 20 <= key <= 25.
Proof.
  unfold recognizedKey, plainKeys. cbn [existsb]. split.
  - intro H. rewrite !orb_true_iff, !Z.eqb_eq in H.
    cbv [PartKeyMessageType PartKeyTimestampS PartKeyTimestampMs
         PartKeyTimestampUs PartKeyThreadId PartKeyTag PartKeyLevel
         PartKeyMessage PartKeyImageWidth PartKeyImageHeight
         PartKeyMessageSeq PartKeyFilename PartKeyLinenumber
         PartKeyFunctionname PartKeyClientName PartKeyClientVersion
         PartKeyOsName PartKeyOsVersion PartKeyClientModel PartKeyUniqueid]
      in H.
    intuition (try discriminate; lia).
  - intro H.
    assert (E : key = 0 \/ key = 1 \/ key = 2 \/ key = 3 \/ key = 4 \/
                key = 5 \/ key = 6 \/ key = 7 \/ key = 8 \/ key = 9 \/
                key = 10 \/ key = 11 \/ key = 12 \/ key = 13 \/ key = 20 \/
                key = 21 \/ key = 22 \/ key = 23 \/ key = 24 \/ key = 25)
      by lia.
    repeat (destruct E as [->|E]; [reflexivity|]). subst key. reflexivity.
Qed.

(** X4: a turn of the inner loop makes [NsLoggerParse] return its error
    exactly when the byte at the cursor can be read and is none of the
    keys 0 to 13 and 20 to 25; the type byte and the data of the part are
    not looked at, and the record and the cursor are left. *)
Theorem unknown_key_exactly
    (timeString : Z -> string) (b : slice) (n : Z) (m : logMessageString) :
  decodePart timeString b n m = Ret None <->
  exists key, index b n = Ret key /\
              ~ (0 <= byteZ key <= 13 \/ 20 <= byteZ key <= 25).
Proof.
  split.
  - intro H. destruct (decodePart_abort _ _ _ _ H) as (key & Hk & Hrec).
    exists key. split; [assumption|].
    intro Hr. apply recognizedKey_range in Hr. congruence.
  - intros (key & Hk & Hn). apply (decodePart_unknown_key _ _ _ _ key Hk).
    apply not_true_is_false. intro Hr. apply Hn.
    now apply recognizedKey_range.
Qed.

(** ** The fields of a line *)

Lemma decimal_not_empty (v : Z) : fmt.decimal v <> "".
Proof.
  unfold fmt.decimal, NilZero.string_of_int.
  destruct (Z.to_int v) as [d|d]; [|discriminate].
  unfold NilZero.string_of_uint. destruct d; discriminate.
Qed.









(** X6: with a separator that has no "%" in it, [addInt16], [addInt32]
    and [addInt64] append the decimal text of the number, which is never
    empty, and the separator, so that a number is never left out;
    [addString] appends a string that is not empty and the separator; none
    of them changes the separator of the record. *)
Theorem accumulator_appends_field
    (t : logMessageString) (v : Z) (s : string) :
  noPercent (separator t) = true ->
  (String' (addInt16 t v)
   = (String' t ++ (fmt.decimal v ++ separator t))%string /\
   String' (addInt32 t v)
   = (String' t ++ (fmt.decimal v ++ separator t))%string /\
   String' (addInt64 t v)
   = (String' t ++ (fmt.decimal v ++ separator t))%string) /\
  fmt.decimal v <> "" /\
  (s <> "" ->
   String' (addString t s) = (String' t ++ (s ++ separator t))%string) /\
  separator (addInt16 t v) = separator t /\
  separator (addInt32 t v) = separator t /\
  separator (addInt64 t v) = separator t /\
  separator (addString t s) = separator t.
Proof.
  intro Hnp.
  assert (Hi : String' (logMessageString_addInt t v)
               = (String' t ++ (fmt.decimal v ++ separator t))%string).
  { unfold logMessageString_addInt, Sprintf.v_then, String'. cbn [value].
    now rewrite rest_noPercent. }
  repeat split; try exact Hi; try apply decimal_not_empty.
  - intro Hs. cbn. unfold logMessageString_addString.
    destruct (String.eqb_spec s "") as [->|_]; [contradiction|reflexivity].
  - cbn. unfold logMessageString_addString.
    destruct (String.eqb s ""); reflexivity.
Qed.

(** ** Data that runs past the buffer *)

(** X7: [appendValue] panics on a part of type Int16, Int32, Int64 or
    String whose data, 2, 4, 8 or the declared number of bytes, runs past
    the capacity of the buffer: it never takes bytes that are not
    there. *)
Theorem value_past_capacity_panics
    (M : Type) (L : logMessage M) (m : M) (b : slice) (n : Z) (ty : byte) :
  index b (u32 (n + 1)) = Ret ty ->
  0 <= n ->
  (byteZ ty = PartTypeInt16 -> n + 4 < 2 ^ 32 -> cap b < n + 4 ->
   appendValue b n m = Panic SliceBoundsOutOfRange) /\
  (byteZ ty = PartTypeInt32 -> n + 6 < 2 ^ 32 -> cap b < n + 6 ->
   appendValue b n m = Panic SliceBoundsOutOfRange) /\
  (byteZ ty = PartTypeInt64 -> n + 10 < 2 ^ 32 -> cap b < n + 10 ->
   appendValue b n m = Panic SliceBoundsOutOfRange) /\
  (byteZ ty = PartTypeString ->
   forall size, lengthField b n = Ret size ->
                n + 6 + size < 2 ^ 32 -> cap b < n + 6 + size ->
                appendValue b n m = Panic SliceBoundsOutOfRange).
Proof.
  intros Hty Hn. repeat split.
  - intros E Hs Hc. unfold appendValue. rewrite Hty. cbn [bind]. rewrite E.
    change (PartTypeInt16 =? PartTypeInt16) with true. cbv beta iota zeta.
    rewrite (u32_small (2 + n + 2)) by lia.
    now rewrite subslice_out_of_range by lia.
  - intros E Hs Hc. unfold appendValue. rewrite Hty. cbn [bind]. rewrite E.
    change (PartTypeInt32 =? PartTypeInt16) with false.
    change (PartTypeInt32 =? PartTypeInt32) with true. cbv beta iota zeta.
    rewrite (u32_small (n + 2 + 4)) by lia.
    now rewrite subslice_out_of_range by lia.
  - intros E Hs Hc. unfold appendValue. rewrite Hty. cbn [bind]. rewrite E.
    change (PartTypeInt64 =? PartTypeInt16) with false.
    change (PartTypeInt64 =? PartTypeInt32) with false.
    change (PartTypeInt64 =? PartTypeInt64) with true. cbv beta iota zeta.
    rewrite (u32_small (n + 2 + 8)) by lia.
    now rewrite subslice_out_of_range by lia.
  - intros E size Hl Hs Hc. pose proof (lengthField_range _ _ _ Hl).
    unfold appendValue. rewrite Hty. cbn [bind]. rewrite E.
    change (PartTypeString =? PartTypeInt16) with false.
    change (PartTypeString =? PartTypeInt32) with false.
    change (PartTypeString =? PartTypeInt64) with false.
    change (PartTypeString =? PartTypeString) with true. cbv beta iota zeta.
    rewrite Hl. cbn [bind].
    rewrite (u32_small (n + 6 + size)) by lia.
    now rewrite subslice_out_of_range by lia.
Qed.

(** ** A run that does not end *)

Lemma walk_loops (timeString : Z -> string) (b : slice) (separator : string)
    (n T : Z) (line : string) :
  u32 (n + T) < fileSize b ->
  decodeMessage timeString b separator n = Ret (Next n T line) ->
  forall fuel res, walk timeString fuel b separator n T res = None.
Proof.
  intros Hlt Hm. induction fuel as [|fuel IH]; intro res; [reflexivity|].
  rewrite (walk_next _ _ _ _ _ _ _ _ _ _ Hlt Hm). apply IH.
Qed.

(** X8: the outer loop does not look whether the cursor has moved on:
    when the run comes to a message whose turn leaves the cursor and
    [totalSize] as they were, [NsLoggerParse] never returns, whatever the
    fuel. *)
Theorem run_never_returns_when_cursor_comes_back
    (timeString : Z -> string) (b : slice) (separator : string)
    (lines : list string) (n T : Z) (line : string) :
  Reach timeString b separator lines (AtMessage n T) ->
  u32 (n + T) < fileSize b ->
  decodeMessage timeString b separator n = Ret (Next n T line) ->
  forall fuel, NsLoggerParse timeString fuel b separator = None.
Proof.
  intros Hr Hlt Hm fuel.
  destruct (NsLoggerParse timeString fuel b separator) as [r|] eqn:Hrun;
    [|reflexivity].
  exfalso.
  pose proof (run_fuel_mono _ _ _ _ (S (fuel + List.length lines)) _ Hrun
                ltac:(lia)) as Hbig.
  pose proof (reach_resume _ _ _ _ _ Hr fuel) as Hres.
  cbv beta zeta in Hres, Hbig. rewrite <- Hres in Hbig.
  cbn [resume] in Hbig.
  rewrite (walk_loops _ _ _ _ _ _ Hlt Hm) in Hbig. discriminate.
Qed.

(** ** Parts by key and type *)

(** X9: a TimestampS part of type Int32, Int64 or String, written in the
    wire format, gives the record the decimal text of the number (Int32),
    the date and time of the seconds (Int64) or the string itself
    (String), through [addString], and moves the cursor to the end of the
    part. *)
Theorem timestamp_part_rendered
    (timeString : Z -> string) (pre post sp : list byte) (p : payload)
    (m : logMessageString) :
  let n := Z.of_nat (List.length pre) in
  let size := Z.of_nat (List.length (encodePayload p)) in
  let b := mkSlice (pre ++ encodePart (mkPart PartKeyTimestampS p) ++ post)
                   sp in
  okPayload p -> dateOrSeqPayload p ->
  n + 2 + size < 2 ^ 32 ->
  decodePart timeString b n m
  = Ret (Some (n + 2 + size,
               addString m match p with
                           | PInt32 v => fmt.decimal v
                           | PInt64 v => timeString v
                           | PString s => s
                           | _ => ""
                           end)).
Proof.
  intros n size b Hok Hds Hn. unfold b, n.
  rewrite (decodePart_encoded timeString pre post sp
             (mkPart PartKeyTimestampS p) m).
  - rewrite length_encodePart. cbn [partPayload]. fold size.
    unfold renderPart. cbn [partKey partPayload].
    change (PartKeyTimestampS =? PartKeyTimestampS) with true. cbv iota.
    destruct p; try contradiction; do 3 f_equal; lia.
  - split; [assumption|]. right. split; [now left | assumption].
  - rewrite length_encodePart. cbn [partPayload]. fold n size. lia.
Qed.

(** X10: under a key whose case is empty, a part of type Int16, Int32 or
    Int64 that holds the two's complement of a number [v] of its range,
    negative or not, gives the record [v] itself through [addInt16],
    [addInt32] or [addInt64] and moves the cursor by 2 + 2, 2 + 4 or
    2 + 8. *)
Theorem integer_part_round_trip
    (timeString : Z -> string) (pre post sp : list byte) (key v : Z)
    (m : logMessageString) :
  let n := Z.of_nat (List.length pre) in
  let b p := mkSlice (pre ++ encodePart (mkPart key p) ++ post) sp in
  In key plainKeys ->
  n + 10 < 2 ^ 32 ->
  (- 2 ^ 15 <= v < 2 ^ 15 ->
   decodePart timeString (b (PInt16 v)) n m
   = Ret (Some (n + 4, addInt16 m v))) /\
  (- 2 ^ 31 <= v < 2 ^ 31 ->
   decodePart timeString (b (PInt32 v)) n m
   = Ret (Some (n + 6, addInt32 m v))) /\
  (- 2 ^ 63 <= v < 2 ^ 63 ->
   decodePart timeString (b (PInt64 v)) n m
   = Ret (Some (n + 10, addInt64 m v))).
Proof.
  intros n b Hkey Hn.
  destruct (plainKeys_not_special _ Hkey) as [E1 E10].
  repeat split; intro Hv; unfold b, n.
  - rewrite (decodePart_encoded timeString pre post sp
               (mkPart key (PInt16 v)) m).
    + unfold renderPart. cbn [partKey partPayload]. rewrite E1, E10.
      cbn [addPayload]. reflexivity.
    + split; [exact Hv | now left].
    + fold n. cbn. lia.
  - rewrite (decodePart_encoded timeString pre post sp
               (mkPart key (PInt32 v)) m).
    + unfold renderPart. cbn [partKey partPayload]. rewrite E1, E10.
      cbn [addPayload]. reflexivity.
    + split; [exact Hv | now left].
    + fold n. cbn. lia.
  - rewrite (decodePart_encoded timeString pre post sp
               (mkPart key (PInt64 v)) m).
    + unfold renderPart. cbn [partKey partPayload]. rewrite E1, E10.
      cbn [addPayload]. reflexivity.
    + split; [exact Hv | now left].
    + fold n. cbn. lia.
Qed.

(** ** Messages before an unknown key *)

Lemma reach_parts_prefix timeString b separator lines j :
  forall k n m n' m',
    decodeParts timeString j b n m = Ret (Some (n', m')) ->
    Reach timeString b separator lines (AtPart (j + k) n m) ->
    Reach timeString b separator lines (AtPart k n' m').
Proof.
  induction j as [|j IH]; intros k n m n' m' Hd Hr.
  - cbn in Hd. injection Hd as <- <-. assumption.
  - cbn [decodeParts] in Hd.
    destruct (decodePart timeString b n m) as [[[n1 m1]|]| |] eqn:Hp;
      try discriminate.
    cbn [bind] in Hd. apply (IH _ _ _ _ _ Hd).
    eapply Reach_part; eassumption.
Qed.

Lemma readUint32_readable (b : slice) (n : Z) :
  0 <= n -> n + 4 <= cap b -> n + 4 < 2 ^ 32 ->
  exists T, readUint32 b n = Ret T.
Proof.
  intros Hn Hc Hs. unfold readUint32. rewrite u32_small by lia.
  destruct (subslice_in_range b n (n + 4) ltac:(lia) Hc) as [bs Hbs].
  rewrite Hbs. cbn [bind].
  apply subslice_length in Hbs.
  replace (Z.to_nat (n + 4 - n)) with 4%nat in Hbs by lia.
  destruct bs as [|b0 [|b1 [|b2 [|b3 l]]]]; try discriminate.
  rewrite Uint32_value. eauto.
Qed.

(** The run on the bytes of messages that more bytes follow comes to the
    cursor after them, with one line for each. *)
Lemma reach_stream_then (timeString : Z -> string) (separator : string)
    (b : slice) (post : list byte) (msgs : list (list part)) :
  forall (pre : list byte) (lines : list string) (T : Z),
    elems b = (pre ++ encodeStream msgs ++ post)%list ->
    Forall okMessage msgs ->
    len b < 2 ^ 32 ->
    (4 <= List.length post)%nat ->
    Reach timeString b separator lines
          (AtMessage (Z.of_nat (List.length pre)) T) ->
    exists T',
      Reach timeString b separator
            (lines ++ map (renderMessage timeString separator) msgs)%list
            (AtMessage (Z.of_nat (List.length pre)
                        + Z.of_nat (List.length (encodeStream msgs))) T').
Proof.
  induction msgs as [|ps rest IH]; intros pre lines T E Hok Hlen Hpost Hr.
  - exists T. cbn [map encodeStream List.concat List.length].
    now rewrite app_nil_r, Z.add_0_r.
  - inversion Hok as [|? ? Hps Hrest]; subst.
    assert (E' : elems b
                 = (pre ++ encodeMessage ps ++ encodeStream rest ++ post)%list).
    { rewrite E. unfold encodeStream. cbn [map List.concat].
      now rewrite <- app_assoc. }
    pose proof (reach_message_encoded timeString separator b pre _ ps lines T
                  E' Hps Hlen Hr) as Hend.
    set (pre' := (pre ++ encodeMessage ps)%list).
    assert (Hpre' : Z.of_nat (List.length pre')
                    = Z.of_nat (List.length pre)
                      + Z.of_nat (List.length (encodeMessage ps)))
      by (unfold pre'; rewrite length_app; lia).
    rewrite <- Hpre' in Hend.
    assert (Hl : len b = Z.of_nat (List.length pre')
                         + Z.of_nat (List.length (encodeStream rest))
                         + Z.of_nat (List.length post)).
    { unfold len. rewrite E', Hpre', !length_app. lia. }
    destruct (readUint32_readable b (Z.of_nat (List.length pre')))
      as [T1 HT1]; [lia| |lia|].
    { unfold cap. fold (len b) in Hl. unfold len in Hl. lia. }
    pose proof (Reach_line _ _ _ _ _ _ _ Hend HT1) as Hnext.
    assert (E2 : elems b = (pre' ++ encodeStream rest ++ post)%list)
      by (rewrite E'; unfold pre'; now rewrite <- app_assoc).
    destruct (IH pre' _ _ E2 Hrest Hlen Hpost Hnext) as [T' HT'].
    exists T'. cbn [map]. rewrite <- app_assoc in HT'.
    rewrite length_encodeStream_cons.
    replace (Z.of_nat (List.length pre)
             + Z.of_nat (List.length (encodeMessage ps)
                         + List.length (encodeStream rest)))
      with (Z.of_nat (List.length pre')
            + Z.of_nat (List.length (encodeStream rest))) by lia.
    exact HT'.
Qed.

Lemma unknown_key_after_stream
    (timeString : Z -> string) (separator : string)
    (good : list (list part)) (ps : list part) (T partCount : Z)
    (key : byte) (post sp : list byte) (fuel : nat) :
  let b := mkSlice (encodeStream good
                    ++ (BigEndian.PutUint32 T ++ BigEndian.PutUint16 partCount
                        ++ encodeParts ps ++ key :: post)) sp in
  let n := Z.of_nat (List.length (encodeStream good)) in
  Forall okMessage good ->
  Forall okPart ps ->
  len b < 2 ^ 32 ->
  0 <= T -> n + T < len b ->
  Z.of_nat (List.length ps) < partCount < 2 ^ 16 ->
  recognizedKey (byteZ key) = false ->
  (List.length good < fuel)%nat ->
  NsLoggerParse timeString fuel b separator
  = Some (Ret (joinLines (map (renderMessage timeString separator) good),
               Some errUnknownPartKey)).
Proof.
  intros b n Hgood Hps Hlen HT Hcond Hpc Hkey Hfuel.
  set (tail := (BigEndian.PutUint32 T ++ BigEndian.PutUint16 partCount
                ++ encodeParts ps ++ key :: post)%list) in *.
  assert (Hl : len b = n + Z.of_nat (List.length tail)).
  { unfold len, b, n. cbn [elems]. rewrite length_app. lia. }
  assert (Htail : Z.of_nat (List.length tail)
                  = 6 + Z.of_nat (List.length (encodeParts ps)) + 1
                    + Z.of_nat (List.length post)).
  { unfold tail. rewrite !length_app.
    cbn [List.length BigEndian.PutUint32 BigEndian.PutUint16]. lia. }
  assert (Hn0 : 0 <= n) by (unfold n; lia).
  assert (H0 : exists T0, Reach timeString b separator []
                                (AtMessage (Z.of_nat (@List.length byte [])) T0)).
  { destruct (readUint32_readable b 0) as [T0 HT0]; try lia.
    - unfold cap. fold (len b) in Hl. unfold len in Hl. lia.
    - exists T0. apply Reach_first; [apply Reach_start | exact HT0]. }
  destruct H0 as [T0 H0].
  destruct (reach_stream_then timeString separator b tail good [] [] T0
              eq_refl Hgood Hlen ltac:(lia) H0) as [T' Hr].
  cbn [List.app List.length] in Hr. rewrite Z.add_0_l in Hr. fold n in Hr.
  assert (HT' : T' = T).
  { apply reach_totalSize in Hr.
    assert (Hread : readUint32 b n = Ret T).
    { apply (readUint32_at b (encodeStream good)
               (BigEndian.PutUint16 partCount ++ encodeParts ps
                ++ key :: post ++ sp)).
      - unfold b, tail. cbn [elems spare]. now rewrite <- !app_assoc.
      - lia.
      - fold n. lia. }
    rewrite Hread in Hr. now injection Hr. }
  subst T'.
  assert (Hlt : u32 (n + T) < fileSize b).
  { unfold fileSize. rewrite !u32_small by lia. lia. }
  set (pre1 := (encodeStream good ++ BigEndian.PutUint32 T)%list).
  assert (Hpre1 : Z.of_nat (List.length pre1) = n + 4)
    by (unfold pre1, n; rewrite length_app, length_PutUint32; lia).
  assert (Hcount : readUint16 b (u32 (n + 4)) = Ret partCount).
  { rewrite u32_small by lia. rewrite <- Hpre1.
    apply (readUint16_at b pre1 (encodeParts ps ++ key :: post ++ sp)).
    - unfold b, tail, pre1. cbn [elems spare]. now rewrite <- !app_assoc.
    - lia.
    - lia. }
  pose proof (Reach_message _ _ _ _ _ _ _ Hr Hlt Hcount) as Hparts.
  set (pre2 := (pre1 ++ BigEndian.PutUint16 partCount)%list).
  assert (Hpre2 : Z.of_nat (List.length pre2) = n + 6)
    by (unfold pre2; rewrite length_app;
        cbn [List.length BigEndian.PutUint16]; lia).
  replace (u32 (u32 (n + 4) + 2)) with (Z.of_nat (List.length pre2))
    in Hparts by (rewrite Hpre2, !u32_small by (rewrite ?u32_small; lia); lia).
  replace (Z.to_nat partCount)
    with (List.length ps + S (Z.to_nat partCount - S (List.length ps)))%nat
    in Hparts by lia.
  assert (Hb : b = mkSlice (pre2 ++ encodeParts ps ++ key :: post) sp).
  { unfold b, tail, pre2, pre1. now rewrite <- !app_assoc. }
  pose proof (decodeParts_encoded timeString ps pre2 (key :: post) sp
                (mkLogMessageString "" separator) Hps ltac:(lia)) as Hdec.
  rewrite <- Hb in Hdec.
  pose proof (reach_parts_prefix _ _ _ _ _ _ _ _ _ _ Hdec Hparts) as Hat.
  assert (Hk : index b (Z.of_nat (List.length pre2)
                        + Z.of_nat (List.length (encodeParts ps)))
               = Ret key).
  { rewrite Hb. rewrite <- Nat2Z.inj_add, <- length_app, app_assoc.
    apply index_layout. }
  apply (run_complete _ _ _ _ _ _ Hat).
  - cbn [halt]. now rewrite (decodePart_unknown_key _ _ _ _ _ Hk Hkey).
  - now rewrite length_map.
Qed.

(** X1: a stream of messages written in the wire format, each part with a
    key that has a case and a type its key takes, followed by at least four
    bytes of spare capacity that hold a [totalSize] T with len + 4 + T
    below 2^32 (four zero bytes do), is decoded into one line for each
    message, made of what its parts render, in the order of the stream,
    and no error; the run ends whatever fuel it has beyond one turn for
    each message. *)
Theorem stream_with_spare_capacity_decodes
    (timeString : Z -> string) (separator : string)
    (msgs : list (list part)) (sp : list byte) (T : Z) (fuel : nat) :
  let b := mkSlice (encodeStream msgs) (BigEndian.PutUint32 T ++ sp) in
  Forall okMessage msgs ->
  0 <= T ->
  len b + 4 + T < 2 ^ 32 ->
  (List.length msgs < fuel)%nat ->
  NsLoggerParse timeString fuel b separator
  = Some (Ret (joinLines (map (renderMessage timeString separator) msgs),
               None)).
Proof. exact (stream_decodes timeString separator msgs sp T fuel). Qed.

(** X11: when messages written in the wire format come first and a message
    follows that the loop goes into, with some of its parts well formed
    and then, before its partCount is reached, a part whose key has no
    case, [NsLoggerParse] returns the error "Unkown part key" and, with
    it, exactly the lines of the messages before: nothing of the message
    with the unknown key and nothing of what follows it. *)
Theorem error_after_good_messages
    (timeString : Z -> string) (separator : string)
    (good : list (list part)) (ps : list part) (T partCount : Z)
    (key : byte) (post sp : list byte) (fuel : nat) :
  let b := mkSlice (encodeStream good
                    ++ (BigEndian.PutUint32 T ++ BigEndian.PutUint16 partCount
                        ++ encodeParts ps ++ key :: post)) sp in
  let n := Z.of_nat (List.length (encodeStream good)) in
  Forall okMessage good ->
  Forall okPart ps ->
  len b < 2 ^ 32 ->
  0 <= T -> n + T < len b ->
  Z.of_nat (List.length ps) < partCount < 2 ^ 16 ->
  recognizedKey (byteZ key) = false ->
  (List.length good < fuel)%nat ->
  NsLoggerParse timeString fuel b separator
  = Some (Ret (joinLines (map (renderMessage timeString separator) good),
               Some errUnknownPartKey)).
Proof.
  exact (unknown_key_after_stream timeString separator good ps T partCount
           key post sp fuel).
Qed.

(** ** The command *)


(** X13: the command, given a file where messages in the wire format are
    followed by a message with a part whose key has no case, ends through
    [log.Fatal] with "Unkown part key" and writes no file: the lines of
    the messages decoded before the unknown key are lost. *)
Theorem main_fatal_on_unknown_key
    (timeString : Z -> string) (fuel : nat) (prog filename : string)
    (more : list string) (good : list (list part)) (ps : list part)
    (T partCount : Z) (key : byte) (post sp : list byte)
    (ReadFile : string -> error + slice)
    (WriteFile : string -> string -> option error) :
  let data := mkSlice (encodeStream good
                       ++ (BigEndian.PutUint32 T
                           ++ BigEndian.PutUint16 partCount
                           ++ encodeParts ps ++ key :: post)) sp in
  let n := Z.of_nat (List.length (encodeStream good)) in
  ReadFile filename = inr data ->
  Forall okMessage good ->
  Forall okPart ps ->
  len data < 2 ^ 32 ->
  0 <= T -> n + T < len data ->
  Z.of_nat (List.length ps) < partCount < 2 ^ 16 ->
  recognizedKey (byteZ key) = false ->
  (List.length good < fuel)%nat ->
  main timeString fuel (prog :: filename :: more) ReadFile WriteFile
  = Some (Fatal errUnknownPartKey).
Proof.
  intros data n Hread Hgood Hps Hlen HT Hcond Hpc Hkey Hfuel.
  unfold main. cbn [nth_error]. rewrite Hread. unfold data.
  pose proof (fun sep =>
                unknown_key_after_stream timeString sep good ps T partCount
                  key post sp fuel Hgood Hps Hlen HT Hcond Hpc Hkey Hfuel)
    as Hrun.
  cbv beta zeta in Hrun. now rewrite Hrun.
Qed.

(** ** The panics of a run *)

Lemma subslice_panic (b : slice) (lo hi : Z) (p : panic) :
  subslice b lo hi = Panic p -> p = SliceBoundsOutOfRange.
Proof.
  unfold subslice. destruct (_ && _); [discriminate|].
  intro H. now injection H.
Qed.

Lemma subslice_at (b : slice) (n k : Z) (bs : list byte) :
  0 < k < 2 ^ 32 ->
  subslice b n (u32 (n + k)) = Ret bs -> List.length bs = Z.to_nat k.
Proof.
  intros Hk Hs.
  assert (Hn : 0 <= n < 2 ^ 32).
  { unfold subslice in Hs.
    destruct ((0 <=? n) && (n <=? u32 (n + k)) && (u32 (n + k) <=? cap b))
      eqn:E; [|discriminate].
    apply andb_true_iff in E as [E _]. apply andb_true_iff in E as [E1 E2].
    apply Z.leb_le in E1, E2. pose proof (u32_range (n + k)). lia. }
  apply (subslice_exact b n k); [lia|]. now rewrite (u32_small n Hn).
Qed.

Lemma index_panic (b : slice) (i : Z) (p : panic) :
  index b i = Panic p -> p = IndexOutOfRange /\ (i < 0 \/ len b <= i).
Proof.
  unfold index, len.
  destruct ((0 <=? i) && (i <? Z.of_nat (List.length (elems b)))) eqn:E.
  - apply andb_true_iff in E as [E1 E2].
    apply Z.leb_le in E1. apply Z.ltb_lt in E2.
    destruct (nth_error (elems b) (Z.to_nat i)) eqn:En; [discriminate|].
    apply nth_error_None in En. lia.
  - intro H. injection H as <-. split; [reflexivity|].
    apply andb_false_iff in E as [E|E];
      [apply Z.leb_gt in E | apply Z.ltb_ge in E]; lia.
Qed.

Lemma index_past_len (b : slice) (i : Z) :
  len b <= i -> index b i = Panic IndexOutOfRange.
Proof.
  intro H. unfold index.
  replace (i <? len b) with false by (symmetry; apply Z.ltb_ge; lia).
  now rewrite andb_false_r.
Qed.

Lemma readUint32_panic (b : slice) (n : Z) (p : panic) :
  readUint32 b n = Panic p -> p = SliceBoundsOutOfRange.
Proof.
  unfold readUint32.
  destruct (subslice b n (u32 (n + 4))) as [bs|q|] eqn:E; cbn [bind];
    try discriminate.
  - apply subslice_at in E; [|lia]. change (Z.to_nat 4) with 4%nat in E.
    destruct bs as [|b0 [|b1 [|b2 [|b3 [|]]]]]; discriminate.
  - intro H. injection H as <-. now apply subslice_panic in E.
Qed.

Lemma readUint16_panic (b : slice) (n : Z) (p : panic) :
  readUint16 b n = Panic p -> p = SliceBoundsOutOfRange.
Proof.
  unfold readUint16.
  destruct (subslice b n (u32 (n + 2))) as [bs|q|] eqn:E; cbn [bind];
    try discriminate.
  - apply subslice_at in E; [|lia]. change (Z.to_nat 2) with 2%nat in E.
    destruct bs as [|b0 [|b1 [|]]]; discriminate.
  - intro H. injection H as <-. now apply subslice_panic in E.
Qed.

Lemma lengthField_panic (b : slice) (n : Z) (p : panic) :
  lengthField b n = Panic p -> p = SliceBoundsOutOfRange.
Proof.
  unfold lengthField. replace (n + 6) with (n + 2 + 4) by lia.
  destruct (subslice b (u32 (n + 2)) (u32 (n + 2 + 4))) as [bs|q|] eqn:E;
    cbn [bind]; try discriminate.
  - apply subslice_exact in E; [|lia]. change (Z.to_nat 4) with 4%nat in E.
    destruct bs as [|b0 [|b1 [|b2 [|b3 [|]]]]]; discriminate.
  - intro H. injection H as <-. now apply subslice_panic in E.
Qed.

(** The integer cases of [appendValue] and [readDate] panic on their
    slice expression only. *)
Lemma read_case_panic (A : Type) (b : slice) (a : Z) (k : nat)
    (ReadInt : list byte -> outcome (option error * Z))
    (f : Z -> outcome A) (p : panic) :
  0 < Z.of_nat k < 2 ^ 32 ->
  (forall bs, List.length bs = k -> exists v, ReadInt bs = Ret (None, v)) ->
  (forall v, f v <> Panic p) ->
  (bs <- subslice b (u32 a) (u32 (a + Z.of_nat k)) ;;
   '(err, val) <- ReadInt bs ;;
   _ <- check err ;;
   f val) = Panic p ->
  p = SliceBoundsOutOfRange.
Proof.
  intros Hk Hread Hf.
  destruct (subslice b (u32 a) (u32 (a + Z.of_nat k))) as [bs| |] eqn:E;
    cbn [bind]; try discriminate.
  - apply subslice_exact in E; [|lia]. rewrite Nat2Z.id in E.
    destruct (Hread bs E) as [v Hv]. rewrite Hv. cbn [bind check].
    intro H. now apply Hf in H.
  - intro H. injection H as <-. now apply subslice_panic in E.
Qed.

Lemma appendValue_panic (b : slice) (n : Z) (m : logMessageString)
    (p : panic) :
  appendValue b n m = Panic p ->
  p = SliceBoundsOutOfRange \/ index b (u32 (n + 1)) = Panic p.
Proof.
  unfold appendValue.
  destruct (index b (u32 (n + 1))) as [ty|q|] eqn:Hty; cbn [bind];
    try discriminate.
  2:{ intro H. injection H as <-. now right. }
  intro H. left. revert H.
  destruct (byteZ ty =? PartTypeInt16).
  { rewrite (Z.add_comm 2 n).
    apply (read_case_panic _ b (n + 2) 2 ReadInt16); try discriminate;
      [cbn; lia | apply ReadInt16_full]. }
  destruct (byteZ ty =? PartTypeInt32).
  { apply (read_case_panic _ b (n + 2) 4 ReadInt32); try discriminate;
      [cbn; lia | apply ReadInt32_full]. }
  destruct (byteZ ty =? PartTypeInt64).
  { apply (read_case_panic _ b (n + 2) 8 ReadInt64); try discriminate;
      [cbn; lia | apply ReadInt64_full]. }
  destruct (byteZ ty =? PartTypeString).
  { destruct (lengthField b n) as [size| |] eqn:El; cbn [bind];
      try discriminate.
    - destruct (subslice b (u32 (n + 6)) (u32 (n + 6 + size))) eqn:Ed;
        cbn [bind]; try discriminate.
      intro H. injection H as <-. now apply subslice_panic in Ed.
    - intro H. injection H as <-. now apply lengthField_panic in El. }
  destruct (byteZ ty =? PartTypeBinary).
  { destruct (lengthField b n) as [size| |] eqn:El; cbn [bind];
      try discriminate.
    intro H. injection H as <-. now apply lengthField_panic in El. }
  destruct (byteZ ty =? PartTypeImage).
  { destruct (lengthField b n) as [size| |] eqn:El; cbn [bind];
      try discriminate.
    intro H. injection H as <-. now apply lengthField_panic in El. }
  cbn [check bind]. discriminate.
Qed.

Lemma readDate_panic (timeString : Z -> string) (b : slice) (n : Z)
    (p : panic) :
  readDate timeString b n = Panic p ->
  p = SliceBoundsOutOfRange \/ index b (u32 (n + 1)) = Panic p.
Proof.
  unfold readDate.
  destruct (index b (u32 (n + 1))) as [ty|q|] eqn:Hty; cbn [bind];
    try discriminate.
  2:{ intro H. injection H as <-. now right. }
  intro H. left. revert H.
  destruct (byteZ ty =? PartTypeInt32).
  { apply (read_case_panic _ b (n + 2) 4 ReadInt32); try discriminate;
      [cbn; lia | apply ReadInt32_full]. }
  destruct (byteZ ty =? PartTypeInt64).
  { apply (read_case_panic _ b (n + 2) 8 ReadInt64); try discriminate;
      [cbn; lia | apply ReadInt64_full]. }
  destruct (byteZ ty =? PartTypeString).
  { destruct (lengthField b n) as [size| |] eqn:El; cbn [bind];
      try discriminate.
    - destruct (subslice b (u32 (n + 6)) (u32 (n + 6 + size))) eqn:Ed;
        cbn [bind]; try discriminate.
      intro H. injection H as <-. now apply subslice_panic in Ed.
    - intro H. injection H as <-. now apply lengthField_panic in El. }
  cbn [check bind]. discriminate.
Qed.

Lemma skipPart_panic (b : slice) (n : Z) (p : panic) :
  skipPart b n = Panic p ->
  p = SliceBoundsOutOfRange \/ index b (u32 (n + 1)) = Panic p.
Proof.
  unfold skipPart.
  destruct (index b (u32 (n + 1))) as [ty|q|] eqn:Hty; cbn [bind];
    try discriminate.
  2:{ intro H. injection H as <-. now right. }
  intro H. left. revert H.
  destruct (byteZ ty =? PartTypeInt32); [discriminate|].
  destruct (byteZ ty =? PartTypeInt64); [discriminate|].
  destruct (byteZ ty =? PartTypeString).
  { destruct (lengthField b n) as [size| |] eqn:El; cbn [bind];
      try discriminate.
    intro H. injection H as <-. now apply lengthField_panic in El. }
  cbn [check bind]. discriminate.
Qed.

Lemma decodePart_panic (timeString : Z -> string) (b : slice) (n : Z)
    (m : logMessageString) (p : panic) :
  decodePart timeString b n m = Panic p ->
  p = SliceBoundsOutOfRange \/
  index b n = Panic p \/
  exists key, index b n = Ret key /\ recognizedKey (byteZ key) = true /\
              index b (u32 (n + 1)) = Panic p.
Proof.
  unfold decodePart.
  destruct (index b n) as [key|q|] eqn:Hk; cbn [bind]; try discriminate.
  2:{ intro H. injection H as <-. right. now left. }
  intro H.
  assert (Hgoal : recognizedKey (byteZ key) = true /\
                  (p = SliceBoundsOutOfRange \/
                   index b (u32 (n + 1)) = Panic p)).
  { revert H. unfold keySwitch, recognizedKey.
    destruct (byteZ key =? PartKeyTimestampS).
    { destruct (readDate timeString b n) as [[u s]|q|e'] eqn:Hrd;
        cbn [bind]; try discriminate.
      - destruct (negb (u =? 0)); cbn [bind]; [discriminate|].
        destruct (appendValue b n m) as [[u' m']|q|e'] eqn:Ha; cbn [bind];
          try discriminate.
        intro H. injection H as <-. split; [reflexivity|].
        now apply appendValue_panic in Ha.
      - intro H. injection H as <-. split; [reflexivity|].
        now apply readDate_panic in Hrd. }
    destruct (byteZ key =? PartKeyMessageSeq).
    { destruct (skipPart b n) as [u|q|e'] eqn:Hsk; cbn [bind];
        try discriminate.
      - destruct (negb (u =? 0)); cbn [bind]; [discriminate|].
        destruct (appendValue b n m) as [[u' m']|q|e'] eqn:Ha; cbn [bind];
          try discriminate.
        intro H. injection H as <-. split; [reflexivity|].
        now apply appendValue_panic in Ha.
      - intro H. injection H as <-. split; [reflexivity|].
        now apply skipPart_panic in Hsk. }
    destruct (existsb (Z.eqb (byteZ key)) plainKeys); cbn [bind];
      [|discriminate].
    cbn [negb Z.eqb].
    destruct (appendValue b n m) as [[u' m']|q|e'] eqn:Ha; cbn [bind];
      try discriminate.
    intro H. injection H as <-. split; [reflexivity|].
    now apply appendValue_panic in Ha. }
  destruct Hgoal as [Hrec [->|Hty]]; [now left|].
  right. right. exists key. auto.
Qed.

Lemma decodePart_cursor (timeString : Z -> string) (b : slice) (n n' : Z)
    (m m' : logMessageString) :
  decodePart timeString b n m = Ret (Some (n', m')) -> 0 <= n' < 2 ^ 32.
Proof.
  unfold decodePart.
  destruct (index b n) as [key| |]; cbn [bind]; try discriminate.
  destruct (keySwitch timeString b n (byteZ key)) as [[[u s]|]| |];
    cbn [bind]; try discriminate.
  match goal with
  | |- context [bind ?c _] => destruct c as [[u' m'']| |]
  end; cbn [bind]; try discriminate.
  intro H. injection H as <- _. apply u32_range.
Qed.

Lemma reach_part_cursor (timeString : Z -> string) (b : slice)
    (separator : string) (lines : list string) (k : nat) (n : Z)
    (m : logMessageString) :
  Reach timeString b separator lines (AtPart k n m) -> 0 <= n < 2 ^ 32.
Proof.
  intro Hr. inversion Hr; subst.
  - apply u32_range.
  - eapply decodePart_cursor; eassumption.
Qed.

(** X14: a run panics with "index out of range" only at a part it has
    come to, one that the partCount of its message promises, whose key
    byte lies at or beyond the length of the buffer, or whose key has a
    case and whose type byte lies there; every other panic of a run is
    the one of a slice expression out of range. *)
Theorem index_panic_only_at_missing_part
    (timeString : Z -> string) (b : slice) (separator : string)
    (fuel : nat) :
  NsLoggerParse timeString fuel b separator = Some (Panic IndexOutOfRange) ->
  exists lines partCount n m,
    Reach timeString b separator lines (AtPart (S partCount) n m) /\
    (len b <= n \/
     exists key, index b n = Ret key /\ recognizedKey (byteZ key) = true /\
                 len b <= u32 (n + 1)).
Proof.
  intro Hrun.
  destruct (run_sound _ _ _ _ _ Hrun) as (lines & c & Hr & Hh & _).
  destruct c as [ | n T | [|k] n m ]; cbn [halt] in Hh.
  - destruct (readUint32 b 0) eqn:E; try discriminate.
    injection Hh as ->. now apply readUint32_panic in E.
  - destruct (u32 (n + T) <? fileSize b); [|discriminate].
    destruct (readUint16 b (u32 (n + 4))) eqn:E; try discriminate.
    injection Hh as ->. now apply readUint16_panic in E.
  - destruct (readUint32 b n) eqn:E; try discriminate.
    injection Hh as ->. now apply readUint32_panic in E.
  - destruct (decodePart timeString b n m) as [[[n' m']|]|p|e'] eqn:Hp;
      try discriminate.
    injection Hh as ->.
    pose proof (reach_part_cursor _ _ _ _ _ _ _ Hr) as Hn.
    exists lines, k, n, m. split; [assumption|].
    destruct (decodePart_panic _ _ _ _ _ Hp)
      as [Hs|[Hi|(key & Hk & Hrec & Hty)]]; [discriminate| |].
    + left. apply index_panic in Hi as [_ [Hi|Hi]]; lia.
    + right. exists key. repeat split; try assumption.
      apply index_panic in Hty as [_ [Hty|Hty]]; [|assumption].
      pose proof (u32_range (n + 1)). lia.
Qed.

Lemma decodePart_missing (timeString : Z -> string) (b : slice) (n : Z)
    (m : logMessageString) :
  len b <= n \/
  (exists key, index b n = Ret key /\ recognizedKey (byteZ key) = true /\
               len b <= u32 (n + 1)) ->
  decodePart timeString b n m = Panic IndexOutOfRange.
Proof.
  unfold decodePart. intros [Hn|(key & Hk & Hrec & Hty)].
  - now rewrite (index_past_len _ _ Hn).
  - rewrite Hk. cbn [bind]. apply index_past_len in Hty.
    unfold recognizedKey in Hrec. unfold keySwitch.
    destruct (byteZ key =? PartKeyTimestampS).
    { unfold readDate. now rewrite Hty. }
    destruct (byteZ key =? PartKeyMessageSeq).
    { unfold skipPart. now rewrite Hty. }
    cbn [orb] in Hrec. rewrite Hrec. cbn [bind negb Z.eqb].
    unfold appendValue. now rewrite Hty.
Qed.

(** X15: when the inner loop comes to a part that is not in the buffer,
    its key byte at or beyond the length, or its key one with a case and
    its type byte there, the run panics with "index out of range": a
    partCount larger than the parts the buffer holds is not reported as
    an error, and the lines of the messages before are lost. *)
Theorem missing_part_panics
    (timeString : Z -> string) (b : slice) (separator : string)
    (lines : list string) (partCount : nat) (n : Z) (m : logMessageString) :
  Reach timeString b separator lines (AtPart (S partCount) n m) ->
  len b <= n \/
  (exists key, index b n = Ret key /\ recognizedKey (byteZ key) = true /\
               len b <= u32 (n + 1)) ->
  forall fuel, (List.length lines < fuel)%nat ->
    NsLoggerParse timeString fuel b separator = Some (Panic IndexOutOfRange).
Proof.
  intros Hr Hmiss fuel Hf.
  apply (run_complete _ _ _ _ _ _ Hr); [|assumption].
  cbn [halt]. now rewrite (decodePart_missing _ _ _ _ Hmiss).
Qed.

(** ** The further properties on concrete streams *)

Section ConcreteStreams.

Import Examples Streams.

Lemma stream2_ok : Forall okMessage stream2.
Proof.
  unfold stream2, okMessage, okPart.
  repeat (apply Forall_cons || apply Forall_nil || split);
    cbn [partKey partPayload okPayload dateOrSeqPayload List.length];
    try lia; try exact I.
  all: left; simpl; auto 25.
Qed.

Lemma streamHi_ok : Forall okMessage streamHi.
Proof.
  unfold streamHi, okMessage, okPart.
  repeat (apply Forall_cons || apply Forall_nil || split);
    cbn [partKey partPayload okPayload dateOrSeqPayload List.length];
    try lia; try exact I.
  all: left; simpl; auto 25.
Qed.

Lemma stream_with_spare_capacity_decodes_witness :
  Forall okMessage stream2 /\
  NsLoggerParse utcString 3
    (mkSlice (encodeStream stream2) (BigEndian.PutUint32 0 ++ [])) ","
  = Some (Ret (joinLines ["2023-11-14 22:13:20 +0000 UTC,hi,"; "-2,"],
               None)).
Proof.
  split; [exact stream2_ok|].
  apply (stream_with_spare_capacity_decodes utcString "," stream2 [] 0 3
           stream2_ok); [lia | reflexivity | cbn; lia].
Defined.

Lemma stream_without_spare_capacity_panics_witness :
  Forall okMessage stream2 /\
  NsLoggerParse utcString 3 (mkSlice (encodeStream stream2) []) ","
  = Some (Panic SliceBoundsOutOfRange).
Proof.
  split; [exact stream2_ok|].
  apply (stream_without_spare_capacity_panics utcString "," stream2 [] 3
           stream2_ok); [cbn; lia | reflexivity | cbn; lia].
Defined.

Lemma fatal_only_at_unhandled_type_witness :
  NsLoggerParse utcString 1 badType "," = Some (Fatal errUnknownPartType) /\
  exists lines partCount n m key ty,
    Reach utcString badType "," lines (AtPart (S partCount) n m) /\
    index badType n = Ret key /\ index badType (u32 (n + 1)) = Ret ty /\
    fatalAt (byteZ key) (byteZ ty) errUnknownPartType.
Proof.
  split; [reflexivity|].
  apply (fatal_only_at_unhandled_type utcString badType "," 1
           errUnknownPartType eq_refl).
Defined.


Lemma accumulator_appends_field_witness :
  noPercent "," = true /\
  String' (addInt32 (mkLogMessageString "x," ",") 0) = "x,0," /\
  String' (addString (mkLogMessageString "x," ",") "a") = "x,a,".
Proof.
  split; [reflexivity|].
  pose proof (accumulator_appends_field (mkLogMessageString "x," ",") 0 "a"
                eq_refl) as [[_ [H32 _]] [_ [Hs _]]].
  split; [exact H32|]. apply Hs. discriminate.
Defined.

Lemma value_past_capacity_panics_witness :
  index cutInt32 (u32 (0 + 1)) = Ret x03 /\
  cap cutInt32 < 0 + 6 /\
  appendValue cutInt32 0 m0 = Panic SliceBoundsOutOfRange.
Proof.
  split; [reflexivity|]. split; [reflexivity|].
  apply (proj1 (proj2 (value_past_capacity_panics logMessageString _ m0
                         cutInt32 0 x03 eq_refl ltac:(lia))));
    reflexivity.
Defined.

Lemma run_never_returns_when_cursor_comes_back_witness :
  Reach utcString backToStart "," [] (AtMessage 0 8) /\
  u32 (0 + 8) < fileSize backToStart /\
  decodeMessage utcString backToStart "," 0 = Ret (Next 0 8 "") /\
  NsLoggerParse utcString 1000 backToStart "," = None.
Proof.
  assert (Hr : Reach utcString backToStart "," [] (AtMessage 0 8))
    by (apply Reach_first; [apply Reach_start | reflexivity]).
  split; [exact Hr|]. split; [reflexivity|]. split; [reflexivity|].
  apply (run_never_returns_when_cursor_comes_back utcString backToStart ","
           [] 0 8 "" Hr eq_refl eq_refl).
Defined.

Lemma timestamp_part_rendered_witness :
  decodePart utcString
    (mkSlice ([] ++ encodePart (mkPart PartKeyTimestampS (PInt64 1700000000))
                 ++ []) []) 0 m0
  = Ret (Some (10, mkLogMessageString "2023-11-14 22:13:20 +0000 UTC," ",")).
Proof.
  apply (timestamp_part_rendered utcString [] [] [] (PInt64 1700000000) m0);
    [cbn; lia | exact I | reflexivity].
Defined.

Lemma integer_part_round_trip_witness :
  In PartKeyThreadId plainKeys /\
  decodePart utcString
    (mkSlice ([] ++ encodePart (mkPart PartKeyThreadId (PInt16 (-2))) ++ [])
             []) 0 m0
  = Ret (Some (4, mkLogMessageString "-2," ",")).
Proof.
  assert (Hin : In PartKeyThreadId plainKeys) by (simpl; auto 25).
  split; [exact Hin|].
  apply (proj1 (integer_part_round_trip utcString [] [] [] PartKeyThreadId
                  (-2) m0 Hin eq_refl)).
  lia.
Defined.

Lemma error_after_good_messages_witness :
  Forall okMessage streamHi /\
  recognizedKey (byteZ x64) = false /\
  NsLoggerParse utcString 2
    (mkSlice (encodeStream streamHi
              ++ (BigEndian.PutUint32 4 ++ BigEndian.PutUint16 1
                  ++ encodeParts [] ++ x64 :: [x00])) []) ","
  = Some (Ret (joinLines ["hi,"], Some errUnknownPartKey)).
Proof.
  split; [exact streamHi_ok|]. split; [reflexivity|].
  apply (error_after_good_messages utcString "," streamHi [] 4 1 x64 [x00]
           [] 2 streamHi_ok (Forall_nil _));
    first [reflexivity | lia | (cbn; lia) | (split; reflexivity)].
Defined.


Lemma main_fatal_on_unknown_key_witness :
  main utcString 2 ["nslogger"; "log.raw"]
       (readAs (mkSlice (encodeStream streamHi
                         ++ (BigEndian.PutUint32 4 ++ BigEndian.PutUint16 1
                             ++ encodeParts [] ++ x64 :: [x00])) []))
       writeOk
  = Some (Fatal errUnknownPartKey).
Proof.
  apply (main_fatal_on_unknown_key utcString 2 "nslogger" "log.raw" []
           streamHi [] 4 1 x64 [x00] [] _ writeOk eq_refl streamHi_ok
           (Forall_nil _));
    first [reflexivity | lia | (cbn; lia) | (split; reflexivity)].
Defined.

Lemma index_panic_only_at_missing_part_witness :
  NsLoggerParse utcString 1 noPart "," = Some (Panic IndexOutOfRange) /\
  exists lines partCount n m,
    Reach utcString noPart "," lines (AtPart (S partCount) n m) /\
    (len noPart <= n \/
     exists key, index noPart n = Ret key /\
                 recognizedKey (byteZ key) = true /\
                 len noPart <= u32 (n + 1)).
Proof.
  split; [reflexivity|].
  apply (index_panic_only_at_missing_part utcString noPart "," 1 eq_refl).
Defined.

Lemma reach_keyOnly : Reach utcString keyOnly "," [] (AtPart 1 6 m0).
Proof.
  pose proof (Reach_start utcString keyOnly ",") as H0.
  pose proof (Reach_first _ _ _ 3 H0 eq_refl) as H1.
  exact (Reach_message _ _ _ _ _ _ 1 H1 eq_refl eq_refl).
Qed.

Lemma missing_part_panics_witness :
  Reach utcString keyOnly "," [] (AtPart 1 6 m0) /\
  index keyOnly 6 = Ret x07 /\ len keyOnly <= u32 (6 + 1) /\
  NsLoggerParse utcString 1 keyOnly "," = Some (Panic IndexOutOfRange).
Proof.
  split; [exact reach_keyOnly|]. split; [reflexivity|].
  split; [discriminate|].
  apply (missing_part_panics utcString keyOnly "," [] 0 6 m0 reach_keyOnly);
    [|cbn; lia].
  right. exists x07. repeat split; discriminate.
Defined.

End ConcreteStreams.
